(** * SPI-Meeting-Notes: the audio-to-report pipeline of [app.py]

    A shallow embedding of [app.py]: Python strings are sequences of
    code points, the transcript and prompt builders are functions on
    them, and the parts of the program that touch the outside
    (files, the clock, the two remote services, standard output) run
    in a state-and-exception monad over an explicit [World]. *)

From Stdlib Require Import ZArith NArith QArith Qround Strings.String Strings.Ascii Strings.Byte.
From Stdlib Require DecimalZ.
From stdpp Require Import base option list gmap.

Set Warnings "-register-all".
Local Open Scope Z_scope.

(** ** Python strings *)

(** A Python [str] is a sequence of Unicode code points. *)
Definition str : Type := list N.

(** The source file is UTF-8; [py] reads a literal of it the way the
    Python parser does, decoding the bytes into code points. *)
Fixpoint utf8_decode (bs : list N) : str :=
  match bs with
  | [] => []
  | b0 :: r0 =>
    if (b0 <? 0x80)%N then b0 :: utf8_decode r0
    else match r0 with
    | [] => [b0]
    | b1 :: r1 =>
      if (b0 <? 0xE0)%N then
        N.lor (N.shiftl (N.land b0 0x1F) 6) (N.land b1 0x3F) :: utf8_decode r1
      else match r1 with
      | [] => [b0; b1]
      | b2 :: r2 =>
        if (b0 <? 0xF0)%N then
          N.lor (N.shiftl (N.land b0 0x0F) 12)
                (N.lor (N.shiftl (N.land b1 0x3F) 6) (N.land b2 0x3F))
            :: utf8_decode r2
        else match r2 with
        | [] => [b0; b1; b2]
        | b3 :: r3 =>
          N.lor (N.shiftl (N.land b0 0x07) 18)
                (N.lor (N.shiftl (N.land b1 0x3F) 12)
                       (N.lor (N.shiftl (N.land b2 0x3F) 6) (N.land b3 0x3F)))
            :: utf8_decode r3
        end
      end
    end
  end.

Definition py (s : string) : str :=
  utf8_decode (map Byte.to_N (list_byte_of_string s)).

(** The newline and the double quote, which the literals below cannot
    hold themselves. *)
Definition nl : str := [10%N].
Definition dquote : str := [34%N].

(** [str.isspace] on one code point, the test [str.strip()] applies:
    the ASCII table of CPython and the Unicode white-space code points
    above it. *)
Definition isspace (c : N) : bool :=
  ((0x09 <=? c) && (c <=? 0x0D) || (0x1C <=? c) && (c <=? 0x20)
   || (c =? 0x85) || (c =? 0xA0) || (c =? 0x1680)
   || (0x2000 <=? c) && (c <=? 0x200A)
   || (c =? 0x2028) || (c =? 0x2029) || (c =? 0x202F) || (c =? 0x205F)
   || (c =? 0x3000))%N.

Fixpoint lstrip (s : str) : str :=
  match s with
  | c :: rest => if isspace c then lstrip rest else s
  | [] => []
  end.

Definition rstrip (s : str) : str := rev (lstrip (rev s)).

(** [s.strip()] *)
Definition strip (s : str) : str := rstrip (lstrip s).

(** [sep.join(xs)] *)
Fixpoint join (sep : str) (xs : list str) : str :=
  match xs with
  | [] => []
  | [x] => x
  | x :: rest => x ++ sep ++ join sep rest
  end.

(** Truth value of a string: [if text:] *)
Definition str_bool (s : str) : bool :=
  match s with [] => false | _ => true end.

(** [str(n)] for an integer: its decimal digits, after a minus sign
    when it is negative. *)
Fixpoint digits_of_uint (d : Decimal.uint) : str :=
  match d with
  | Decimal.Nil => []
  | Decimal.D0 d => 48%N :: digits_of_uint d
  | Decimal.D1 d => 49%N :: digits_of_uint d
  | Decimal.D2 d => 50%N :: digits_of_uint d
  | Decimal.D3 d => 51%N :: digits_of_uint d
  | Decimal.D4 d => 52%N :: digits_of_uint d
  | Decimal.D5 d => 53%N :: digits_of_uint d
  | Decimal.D6 d => 54%N :: digits_of_uint d
  | Decimal.D7 d => 55%N :: digits_of_uint d
  | Decimal.D8 d => 56%N :: digits_of_uint d
  | Decimal.D9 d => 57%N :: digits_of_uint d
  end.

Definition str_int (n : Z) : str :=
  match Z.to_int n with
  | Decimal.Pos d => digits_of_uint d
  | Decimal.Neg d => 45%N :: digits_of_uint d
  end.

(** [f"{n:0wd}"]: sign first, then zeros up to a total width of [w],
    then the digits.  Wider numbers are written in full. *)
Definition format_0d (w : nat) (n : Z) : str :=
  let sign := if n <? 0 then py "-" else [] in
  let digits := str_int (Z.abs n) in
  sign ++ replicate (w - length sign - length digits) 48%N ++ digits.

Definition format_02d (n : Z) : str := format_0d 2 n.

(** [divmod(a, b)]: floor division and the remainder with the sign of
    the divisor, as [Z.div] and [Z.modulo] are. *)
Definition divmod (a b : Z) : Z * Z := (a / b, a mod b).

(** ** The transcription response *)

(** A number as Python holds one in [segment.start]: an integer or a
    finite float, each an exact rational. *)
Definition number : Type := Q.

(** [int(x)] truncates toward zero. *)
Definition int (x : number) : Z := Z.quot (Qnum x) (Z.pos (Qden x)).

(** The response is probed with [getattr(_, name, default)]: an
    attribute is there or not. *)
Record Segment := {
  seg_start : option number;
  seg_text : option str
}.

Record Response := {
  resp_segments : option (list Segment);
  resp_text : option str
}.

Definition speaker : str := py "화자미상".

(** One turn of the loop of [transcribe_audio] (lines 30-36). *)
Definition segment_step (lines : list str) (segment : Segment) : list str :=
  let start_sec := int (default (0 : Q) (seg_start segment)) in
  let '(mm, ss) := divmod start_sec 60 in
  let text := strip (default [] (seg_text segment)) in
  if str_bool text then
    lines ++ [py "[" ++ format_02d mm ++ py ":" ++ format_02d ss ++ py "] "
              ++ speaker ++ py ": " ++ text]
  else lines.

(** What [transcribe_audio] does with the response (lines 24-37). *)
Definition transcript_of_response (response : Response) : str :=
  match resp_segments response with
  | None | Some [] => strip (default [] (resp_text response))
  | Some segments => strip (join nl (fold_left segment_step segments []))
  end.

(** ** JSON values and [json.dumps] *)

(** What [json.loads] returns.  A float stands as the text
    [float.__repr__] writes for it ([NaN], [Infinity] and [-Infinity]
    as [json] names them), which identifies it; a dict keeps its items
    in insertion order. *)
Inductive json : Type :=
| JNull
| JBool (b : bool)
| JInt (n : Z)
| JFloat (repr : str)
| JStr (s : str)
| JList (items : list json)
| JDict (items : list (str * json)).

Definition str_eqb (a b : str) : bool := bool_decide (a = b).

(** Truth value of a Python object: [if quantitative_data]. *)
Definition json_bool (v : json) : bool :=
  match v with
  | JNull => false
  | JBool b => b
  | JInt n => negb (n =? 0)
  | JFloat repr => negb (str_eqb repr (py "0.0") || str_eqb repr (py "-0.0"))
  | JStr s => str_bool s
  | JList items => match items with [] => false | _ => true end
  | JDict items => match items with [] => false | _ => true end
  end.

Definition hexdigit (d : N) : N :=
  nth (N.to_nat d) (py "0123456789abcdef") 48%N.

(** One character of a JSON string with [ensure_ascii=False]: the
    quote, the backslash and the control characters below U+0020 are
    escaped, every other code point is written as it is. *)
Definition escape_char (c : N) : str :=
  if (c =? 34)%N then [92; 34]%N
  else if (c =? 92)%N then [92; 92]%N
  else if (c =? 10)%N then py "\n"
  else if (c =? 13)%N then py "\r"
  else if (c =? 9)%N then py "\t"
  else if (c =? 8)%N then py "\b"
  else if (c =? 12)%N then py "\f"
  else if (c <? 32)%N then py "\u00" ++ [hexdigit (c / 16); hexdigit (c mod 16)]%N
  else [c].

Definition encode_basestring (s : str) : str :=
  dquote ++ concat (map escape_char s) ++ dquote.

(** [json.dumps(v, ensure_ascii=False, indent=2)] at nesting depth
    [level]: items one per line, two spaces per level, [","] between
    items and [": "] after a key. *)
Fixpoint json_encode (level : nat) (v : json) : str :=
  let newline_indent := nl ++ replicate (2 * S level) 32%N in
  match v with
  | JNull => py "null"
  | JBool true => py "true"
  | JBool false => py "false"
  | JInt n => str_int n
  | JFloat repr => repr
  | JStr s => encode_basestring s
  | JList [] => py "[]"
  | JList items =>
    py "[" ++ newline_indent
    ++ join (py "," ++ newline_indent) (map (json_encode (S level)) items)
    ++ nl ++ replicate (2 * level) 32%N ++ py "]"
  | JDict [] => py "{}"
  | JDict items =>
    py "{" ++ newline_indent
    ++ join (py "," ++ newline_indent)
         (map (fun kv => encode_basestring (fst kv) ++ py ": "
                         ++ json_encode (S level) (snd kv)) items)
    ++ nl ++ replicate (2 * level) 32%N ++ py "}"
  end.

Definition json_dumps (v : json) : str := json_encode 0 v.

(** ** The prompt builder *)

(** [str(b)] for a bool. *)
Definition str_of_bool (b : bool) : str := if b then py "True" else py "False".

(** [s.lower()], on the ASCII letters, which is all [str(b)] holds. *)
Definition lower_char (c : N) : N :=
  if ((65 <=? c) && (c <=? 90))%N then (c + 32)%N else c.
Definition lower (s : str) : str := map lower_char s.

Definition meeting_template : str :=
  join nl
    [ [];
      py "#### [회의/워크숍 분석 보고서]";
      py "1. 회의 개요";
      py "2. 데이터 기반 동향 분석";
      py "3. 주요 발견사항 및 심층 분석";
      py "4. 실행 가능한 가설";
      py "5. 실행 계획 (RASCI 매트릭스)";
      py "6. 사고체인·상식 검증 요약";
      py "7. 부록";
      [] ].

Definition interview_template : str :=
  join nl
    [ [];
      py "#### [1:1 인터뷰 분석 보고서]";
      py "1. 요약 (Executive Summary)";
      py "2. 코드별 분석 결과";
      py "3. 주요 발견사항";
      py "4. 종합 인사이트";
      py "5. 리스크 및 기회";
      py "6. 사고체인·상식 검증 요약";
      py "7. 부록";
      [] ].

(** The lines of the f-string of [build_analysis_prompt] (lines
    88-120 of the source), its fields filled in. *)
Definition prompt_lines
    (transcript company_name language_output detail_level : str)
    (privacy_anonymize confidence_labeling : bool)
    (pre_briefing_context quantitative_text selected_template : str)
    : list str :=
    [
      py "## 📌 Universal Interview / Meeting Analysis Prompt";
      [];
      py "### 1. PARAMETERS";
      py "- Company_Name: " ++ dquote ++ company_name ++ dquote;
      py "- Language_Output: " ++ dquote ++ language_output ++ dquote;
      py "- Output_Detail_Level: " ++ dquote ++ detail_level ++ dquote;
      py "- Privacy_Anonymize: " ++ lower (str_of_bool privacy_anonymize);
      py "- Confidence_Labeling: " ++ lower (str_of_bool confidence_labeling);
      py "- Pre_briefing_Context: " ++ dquote ++ pre_briefing_context ++ dquote;
      py "- Quantitative_Data:";
      quantitative_text;
      [];
      py "### 2. INPUT TRANSCRIPT";
      py "INPUT_TRANSCRIPT_START";
      py "<<<";
      transcript;
      py ">>>";
      py "INPUT_TRANSCRIPT_END";
      [];
      py "### 3. EXECUTION PIPELINE & ANALYSIS FRAMEWORKS";
      py "- STAGE 1. 발화 단위 분리 및 코드 매핑 (Pain/Gain/Action), 감성 흐름 분석, 개체/관계 분석";
      py "- STAGE 2. SWOT 분석, RASCI 매트릭스 초안 생성";
      py "- STAGE 3. 실행 가능한 가설 2~3개 도출, 모든 인사이트는 인용/데이터 근거 포함";
      [];
      py "### 4. FINAL OUTPUT TEMPLATES";
      selected_template;
      [];
      py "### 작성 지침";
      py "- 출력은 반드시 한국어로 작성";
      py "- Privacy_Anonymize=true면 이름/개인정보를 비식별 처리";
      py "- Confidence_Labeling=true면 핵심 주장마다 Evidence Strength(A/B/C) 라벨 명시";
      py "- 표는 Markdown 표 형식으로 작성";
      py "- 발언 인용은 타임스탬프를 포함해 제시" ].

(** [quantitative_data] is [None] ([JNull]) or what [json.loads]
    gave.  The f-string opens and closes with a line break, which
    the final [strip()] removes. *)
Definition build_analysis_prompt
    (transcript report_type company_name language_output detail_level : str)
    (privacy_anonymize confidence_labeling : bool)
    (pre_briefing_context : str)
    (quantitative_data : json) : str :=
  let quantitative_text :=
    if json_bool quantitative_data then json_dumps quantitative_data
    else py "없음" in
  let selected_template :=
    if str_eqb report_type (py "meeting") then meeting_template
    else interview_template in
  strip (join nl
           ([] :: prompt_lines transcript company_name language_output detail_level
                    privacy_anonymize confidence_labeling pre_briefing_context
                    quantitative_text selected_template
               ++ [[]])).

(** ** Paths *)

(** A [pathlib.Path] on POSIX: the root ([""], ["/"] or ["//"]) and
    the components, none of them empty or ["."]. *)
Record Path := { root : str; parts : list str }.

Fixpoint split_on (sep : N) (s : str) : list str :=
  match s with
  | [] => [[]]
  | c :: rest =>
    if (c =? sep)%N then [] :: split_on sep rest
    else match split_on sep rest with
         | x :: xs => (c :: x) :: xs
         | [] => [[c]]
         end
  end.

Fixpoint leading_slashes (s : str) : nat :=
  match s with
  | c :: rest => if (c =? 47)%N then S (leading_slashes rest) else O
  | [] => O
  end.

Definition component_ok (c : str) : bool :=
  str_bool c && negb (str_eqb c (py ".")).

(** [Path(s)] *)
Definition path_of_str (s : str) : Path :=
  {| root := match leading_slashes s with
             | O => []
             | 2%nat => py "//"
             | _ => py "/"
             end;
     parts := List.filter component_ok (split_on 47 s) |}.

(** [p / s] *)
Definition joinpath (p : Path) (s : str) : Path :=
  let q := path_of_str s in
  if str_bool (root q) then q
  else {| root := root p; parts := parts p ++ parts q |}.

(** [p.parent] and [p.name] *)
Definition parent (p : Path) : Path :=
  {| root := root p; parts := removelast (parts p) |}.
Definition name (p : Path) : str := default [] (last (parts p)).

(** [str(p)] *)
Definition path_str (p : Path) : str :=
  match root p, parts p with
  | [], [] => py "."
  | r, ps => r ++ join (py "/") ps
  end.

#[global] Instance Path_eq_dec : EqDecision Path.
Proof. solve_decision. Defined.

#[global] Instance Path_countable : Countable Path :=
  inj_countable' (fun p => (root p, parts p))
                 (fun t => {| root := fst t; parts := snd t |})
                 (fun p => match p with Build_Path _ _ => eq_refl end).

(** ** The world outside the program *)

Inductive Content := Text (s : str) | Binary (bytes : list N).
Inductive Node := File (c : Content) | Dir.

Inductive Exception :=
| FileNotFoundError (msg : str)
| IsADirectoryError (p : Path)
| NotADirectoryError (p : Path)
| FileExistsError (p : Path)
| UnicodeDecodeError
| UnicodeEncodeError
| JSONDecodeError
| OpenAIError
| APIError (msg : str)
| SystemExit (code : Z).

Inductive Outcome (A : Type) := Ok (a : A) | Raise (e : Exception).
Arguments Ok {A} a.
Arguments Raise {A} e.

Record datetime := {
  year : Z; month : Z; day : Z; hour : Z; minute : Z; second : Z
}.

Inductive Event :=
| EvLoadDotenv
| EvExists (p : Path)
| EvReadText (p : Path)
| EvNewClient
| EvOpen (p : Path)
| EvTranscribe (model language : str)
| EvGenerate (model prompt : str)
| EvMkdir (p : Path)
| EvNow
| EvWriteText (p : Path) (data : str)
| EvPrint (line : str).

(** The state a run can see or change: the files, the process
    environment and the [.env] file beside it, the command line, the
    clock (read [now_calls] times so far), the two remote services,
    and the record of what the run did, oldest first. *)
Record World := {
  fs : gmap Path Node;
  environ : gmap str str;
  dotenv : gmap str str;
  argv : list str;
  clock : nat -> datetime;
  now_calls : nat;
  speech_to_text : str -> Content -> str -> Outcome Response;
  text_generation : str -> str -> Outcome str;
  trace : list Event
}.

Definition set_fs (f : gmap Path Node) (w : World) : World :=
  {| fs := f; environ := environ w; dotenv := dotenv w; argv := argv w;
     clock := clock w; now_calls := now_calls w;
     speech_to_text := speech_to_text w; text_generation := text_generation w;
     trace := trace w |}.

Definition set_environ (e : gmap str str) (w : World) : World :=
  {| fs := fs w; environ := e; dotenv := dotenv w; argv := argv w;
     clock := clock w; now_calls := now_calls w;
     speech_to_text := speech_to_text w; text_generation := text_generation w;
     trace := trace w |}.

Definition set_now_calls (n : nat) (w : World) : World :=
  {| fs := fs w; environ := environ w; dotenv := dotenv w; argv := argv w;
     clock := clock w; now_calls := n;
     speech_to_text := speech_to_text w; text_generation := text_generation w;
     trace := trace w |}.

Definition set_trace (t : list Event) (w : World) : World :=
  {| fs := fs w; environ := environ w; dotenv := dotenv w; argv := argv w;
     clock := clock w; now_calls := now_calls w;
     speech_to_text := speech_to_text w; text_generation := text_generation w;
     trace := t |}.

(** ** The monad of the effectful code *)

Definition M (A : Type) : Type := World -> Outcome A * World.

#[global] Instance M_ret : MRet M := fun A a w => (Ok a, w).

#[global] Instance M_bind : MBind M := fun A B f m w =>
  match m w with
  | (Ok a, w') => f a w'
  | (Raise e, w') => (Raise e, w')
  end.

Definition raise {A : Type} (e : Exception) : M A := fun w => (Raise e, w).

Definition emit (ev : Event) : M unit :=
  fun w => (Ok tt, set_trace (trace w ++ [ev]) w).

(** A result or an exception handed back by the outside, and a step
    that may also change the world. *)
Definition lift {A : Type} (f : World -> Outcome A) : M A := fun w => (f w, w).
Definition act {A : Type} (f : World -> Outcome A * World) : M A := f.

(** The node at a path; the root and the current directory are
    always there. *)
Definition node_at (f : gmap Path Node) (p : Path) : option Node :=
  match parts p with [] => Some Dir | _ => f !! p end.

(** ** What the program asks of the outside *)

(** [load_dotenv()]: variables of the [.env] file enter the
    environment unless it has them already. *)
Definition load_dotenv : M unit :=
  emit EvLoadDotenv;;
  act (fun w => (Ok tt, set_environ (environ w ∪ dotenv w) w)).

(** [p.exists()] *)
Definition path_exists (p : Path) : M bool :=
  emit (EvExists p);;
  lift (fun w => Ok (bool_decide (is_Some (node_at (fs w) p)))).

(** [p.read_text(encoding="utf-8")] *)
Definition read_text (p : Path) : M str :=
  emit (EvReadText p);;
  lift (fun w =>
    match node_at (fs w) p with
    | None => Raise (FileNotFoundError (path_str p))
    | Some Dir => Raise (IsADirectoryError p)
    | Some (File (Text s)) => Ok s
    | Some (File (Binary _)) => Raise UnicodeDecodeError
    end).

(** [p.open("rb")], read by the callee *)
Definition open_rb (p : Path) : M Content :=
  emit (EvOpen p);;
  lift (fun w =>
    match node_at (fs w) p with
    | None => Raise (FileNotFoundError (path_str p))
    | Some Dir => Raise (IsADirectoryError p)
    | Some (File c) => Ok c
    end).

(** The path itself and the directories above it, outermost first. *)
Definition ancestors (p : Path) : list Path :=
  map (fun k => {| root := root p; parts := take k (parts p) |})
      (seq 1 (length (parts p))).

Definition is_file (o : option Node) : bool :=
  match o with Some (File _) => true | _ => false end.

Definition make_dir (f : gmap Path Node) (a : Path) : gmap Path Node :=
  match f !! a with None => <[a := Dir]> f | Some _ => f end.

(** [p.mkdir(parents=True, exist_ok=True)]: every missing directory
    down to [p] is made; directories that exist are left alone; a
    regular file in the way is an error. *)
Definition mkdir (p : Path) : M unit :=
  emit (EvMkdir p);;
  act (fun w =>
    match List.find (fun a => is_file (fs w !! a)) (ancestors p) with
    | Some a =>
      (Raise (if decide (a = p) then FileExistsError p else NotADirectoryError a), w)
    | None => (Ok tt, set_fs (foldl make_dir (fs w) (ancestors p)) w)
    end).

(** UTF-8 has no encoding for the surrogates. *)
Definition encodable (s : str) : bool :=
  forallb (fun c => negb ((0xD800 <=? c) && (c <=? 0xDFFF))%N) s.

(** [p.write_text(data, encoding="utf-8")]: the file is opened for
    writing, which empties it, and then written. *)
Definition write_text (p : Path) (data : str) : M unit :=
  emit (EvWriteText p data);;
  act (fun w =>
    match node_at (fs w) p, node_at (fs w) (parent p) with
    | Some Dir, _ => (Raise (IsADirectoryError p), w)
    | _, None => (Raise (FileNotFoundError (path_str p)), w)
    | _, Some (File _) => (Raise (NotADirectoryError p), w)
    | _, Some Dir =>
      if encodable data then (Ok tt, set_fs (<[p := File (Text data)]> (fs w)) w)
      else (Raise UnicodeEncodeError, set_fs (<[p := File (Text [])]> (fs w)) w)
    end).

(** [datetime.now()] *)
Definition datetime_now : M datetime :=
  emit EvNow;;
  act (fun w => (Ok (clock w (now_calls w)), set_now_calls (S (now_calls w)) w)).

(** [d.strftime("%Y%m%d_%H%M%S")].  The year is written with four
    digits, as the Python documentation has it; a C library may write
    a year before 1000 shorter. *)
Definition strftime (d : datetime) : str :=
  format_0d 4 (year d) ++ format_02d (month d) ++ format_02d (day d)
  ++ py "_" ++ format_02d (hour d) ++ format_02d (minute d)
  ++ format_02d (second d).

Inductive Client := OpenAIClient (api_key : str).

(** [OpenAI()]: the key comes from the environment. *)
Definition OpenAI : M Client :=
  emit EvNewClient;;
  lift (fun w =>
    match environ w !! py "OPENAI_API_KEY" with
    | Some k => Ok (OpenAIClient k)
    | None => Raise OpenAIError
    end).

(** [client.audio.transcriptions.create(model=..., file=...,
    language=..., response_format="verbose_json",
    timestamp_granularities=["segment"])] *)
Definition transcriptions_create (client : Client) (model : str)
    (audio_file : Content) (language : str) : M Response :=
  emit (EvTranscribe model language);;
  lift (fun w => speech_to_text w model audio_file language).

(** [client.responses.create(model=..., input=prompt).output_text] *)
Definition responses_create (client : Client) (model prompt : str) : M str :=
  emit (EvGenerate model prompt);;
  lift (fun w => text_generation w model prompt).

Definition print (line : str) : M unit := emit (EvPrint line).

(** ** The stages *)

Definition TRANSCRIBE_MODEL : str := py "gpt-4o-mini-transcribe".
Definition ANALYSIS_MODEL : str := py "gpt-4.1".

Definition transcribe_audio (client : Client) (audio_path : Path)
    (language : str) : M str :=
  audio_file ← open_rb audio_path;
  response ← transcriptions_create client TRANSCRIBE_MODEL audio_file language;
  mret (transcript_of_response response).

Definition build_analysis_report (client : Client) (prompt : str) : M str :=
  output_text ← responses_create client ANALYSIS_MODEL prompt;
  mret (strip output_text).

Definition save_outputs (output_dir : Path) (transcript report : str)
    : M (Path * Path) :=
  mkdir output_dir;;
  now ← datetime_now;
  let ts := strftime now in
  let transcript_path := joinpath output_dir (py "transcript_" ++ ts ++ py ".txt") in
  let report_path := joinpath output_dir (py "analysis_report_" ++ ts ++ py ".md") in
  write_text transcript_path transcript;;
  write_text report_path report;;
  mret (transcript_path, report_path).

(** ** The command line *)

Record Namespace := {
  audio : Path;
  company : str;
  language : str;
  output_dir : Path;
  report_type : str;
  detail_level : str;
  pre_briefing_context : str;
  quant_data : option Path;
  no_anonymize : bool;
  no_confidence_label : bool
}.

(** The options [parse_args] declares, and [-h] that every parser
    has. *)
Inductive Dest :=
| DHelp | DCompany | DLanguage | DOutputDir | DReportType | DDetailLevel
| DPreBriefingContext | DQuantData | DNoAnonymize | DNoConfidenceLabel.

Definition option_strings : list (str * Dest) :=
  [ (py "-h", DHelp); (py "--help", DHelp);
    (py "--company", DCompany);
    (py "--language", DLanguage);
    (py "--output-dir", DOutputDir);
    (py "--report-type", DReportType);
    (py "--detail-level", DDetailLevel);
    (py "--pre-briefing-context", DPreBriefingContext);
    (py "--quant-data", DQuantData);
    (py "--no-anonymize", DNoAnonymize);
    (py "--no-confidence-label", DNoConfidenceLabel) ].

(** [choices=...] *)
Definition choices (d : Dest) : option (list str) :=
  match d with
  | DReportType => Some [py "meeting"; py "interview"]
  | DDetailLevel => Some [py "Summary"; py "Exhaustive"]
  | _ => None
  end.

(** [action="store_true"] and help take no value. *)
Definition takes_value (d : Dest) : bool :=
  match d with
  | DHelp | DNoAnonymize | DNoConfidenceLabel => false
  | _ => true
  end.

(** [default=...] of every argument; [audio] has none and is filled
    by the positional. *)
Definition defaults : Namespace :=
  {| audio := path_of_str [];
     company := py "신한정밀공업";
     language := py "ko";
     output_dir := path_of_str (py "outputs");
     report_type := py "meeting";
     detail_level := py "Exhaustive";
     pre_briefing_context := py "없음";
     quant_data := None;
     no_anonymize := false;
     no_confidence_label := false |}.

(** [setattr(namespace, dest, type(value))] *)
Definition store (d : Dest) (v : str) (ns : Namespace) : Namespace :=
  {| audio := audio ns;
     company := match d with DCompany => v | _ => company ns end;
     language := match d with DLanguage => v | _ => language ns end;
     output_dir := match d with DOutputDir => path_of_str v | _ => output_dir ns end;
     report_type := match d with DReportType => v | _ => report_type ns end;
     detail_level := match d with DDetailLevel => v | _ => detail_level ns end;
     pre_briefing_context :=
       match d with DPreBriefingContext => v | _ => pre_briefing_context ns end;
     quant_data := match d with DQuantData => Some (path_of_str v) | _ => quant_data ns end;
     no_anonymize := match d with DNoAnonymize => true | _ => no_anonymize ns end;
     no_confidence_label :=
       match d with DNoConfidenceLabel => true | _ => no_confidence_label ns end |}.

Definition store_audio (v : str) (ns : Namespace) : Namespace :=
  {| audio := path_of_str v;
     company := company ns; language := language ns; output_dir := output_dir ns;
     report_type := report_type ns; detail_level := detail_level ns;
     pre_briefing_context := pre_briefing_context ns; quant_data := quant_data ns;
     no_anonymize := no_anonymize ns; no_confidence_label := no_confidence_label ns |}.

Definition starts_with (prefix s : str) : bool :=
  str_eqb (take (length prefix) s) prefix.

(** [s.split("=", 1)] when [s] has an equals sign. *)
Fixpoint split_equals (s : str) : option (str * str) :=
  match s with
  | [] => None
  | c :: rest =>
    if (c =? 61)%N then Some ([], rest)
    else match split_equals rest with
         | Some (a, b) => Some (c :: a, b)
         | None => None
         end
  end.

Definition exact_option (s : str) : option Dest :=
  snd <$> List.find (fun kv => str_eqb (fst kv) s) option_strings.

(** How [argparse] reads one word of the command line. *)
Inductive Class :=
| CPositional
| COption (option_string : str) (d : Dest) (explicit_arg : option str)
| CAmbiguous
| CUnknown.

(** The options a word abbreviates ([allow_abbrev]): a long option
    by a prefix of its name, a short one by its two characters with
    the rest of the word as its value. *)
Definition option_tuples (arg : str) : list (str * Dest * option str) :=
  match arg with
  | c0 :: c1 :: rest =>
    if ((c0 =? 45) && (c1 =? 45))%N then
      let '(prefix, explicit_arg) :=
        match split_equals arg with
        | Some (a, b) => (a, Some b)
        | None => (arg, None)
        end in
      omap (fun kv => if starts_with prefix (fst kv)
                      then Some (fst kv, snd kv, explicit_arg) else None)
           option_strings
    else if (c0 =? 45)%N then
      omap (fun kv => if str_eqb (fst kv) [c0; c1] then Some (fst kv, snd kv, Some rest)
                      else if starts_with arg (fst kv) then Some (fst kv, snd kv, None)
                      else None)
           option_strings
    else []
  | _ => []
  end.

Section Program.

(** Two library functions the program relies on are taken as given:
    [json.loads], and the test by which [argparse] tells a negative
    number from an option. *)
Variable json_loads : str -> option json.
Variable negative_number_like : str -> bool.

(** [ArgumentParser._parse_optional] *)
Definition classify (arg : str) : Class :=
  match arg with
  | [] => CPositional
  | c0 :: _ =>
    if negb (c0 =? 45)%N then CPositional
    else match exact_option arg with
    | Some d => COption arg d None
    | None =>
      if (length arg =? 1)%nat then CPositional
      else
        match (match split_equals arg with
               | Some (a, b) =>
                 match exact_option a with
                 | Some d => Some (COption a d (Some b))
                 | None => None
                 end
               | None => None
               end) with
        | Some c => c
        | None =>
          match option_tuples arg with
          | [(o, d, e)] => COption o d e
          | _ :: _ :: _ => CAmbiguous
          | [] =>
            if negative_number_like arg then CPositional
            else if bool_decide (32%N ∈ arg) then CPositional
            else CUnknown
          end
        end
    end
  end.

(** The parser between two words: the namespace so far, whether the
    positional has been read, whether the word just read was that
    positional, whether a word was left over, whether ["--"] has been
    passed, and the option still waiting for its value. *)
Record ParseState := {
  st_ns : Namespace;
  st_audio : bool;
  st_last_audio : bool;
  st_extras : bool;
  st_dashdash : bool;
  st_pending : option Dest
}.

Definition initial_state : ParseState :=
  {| st_ns := defaults; st_audio := false; st_last_audio := false;
     st_extras := false; st_dashdash := false; st_pending := None |}.

(** A value for an option: checked against its choices, then stored. *)
Definition store_value (d : Dest) (v : str) (st : ParseState) : Outcome ParseState :=
  let st' := {| st_ns := store d v (st_ns st); st_audio := st_audio st;
                st_last_audio := false; st_extras := st_extras st;
                st_dashdash := st_dashdash st; st_pending := None |} in
  match choices d with
  | Some cs => if bool_decide (v ∈ cs) then Ok st' else Raise (SystemExit 2)
  | None => Ok st'
  end.

(** A positional word: the audio path, or one word too many. *)
Definition positional (arg : str) (st : ParseState) : ParseState :=
  if st_audio st then
    {| st_ns := st_ns st; st_audio := true; st_last_audio := false;
       st_extras := true; st_dashdash := st_dashdash st;
       st_pending := st_pending st |}
  else
    {| st_ns := store_audio arg (st_ns st); st_audio := true;
       st_last_audio := true; st_extras := st_extras st;
       st_dashdash := st_dashdash st; st_pending := st_pending st |}.

(** The word ["--"]: the words after it are arguments.  It goes with
    the positional beside it; away from it, it is a word left over. *)
Definition pass_dashdash (st : ParseState) : ParseState :=
  {| st_ns := st_ns st; st_audio := st_audio st; st_last_audio := st_last_audio st;
     st_extras := st_extras st || (st_audio st && negb (st_last_audio st));
     st_dashdash := true; st_pending := st_pending st |}.

(** A word that is no argument and no known option is left over. *)
Definition left_over (st : ParseState) : ParseState :=
  {| st_ns := st_ns st; st_audio := st_audio st; st_last_audio := false;
     st_extras := true; st_dashdash := st_dashdash st; st_pending := None |}.

(** An option that takes a value waits for the next word. *)
Definition await (d : Dest) (st : ParseState) : ParseState :=
  {| st_ns := st_ns st; st_audio := st_audio st; st_last_audio := false;
     st_extras := st_extras st; st_dashdash := st_dashdash st;
     st_pending := Some d |}.

(** One word.  The value of an option must read as an argument:
    neither an option nor ["--"].  Each value given to an option is
    checked against the choices, as [argparse] documents; releases of
    it that drop a value spelled ["--"] before the check are not
    followed here. *)
Definition step (st : ParseState) (arg : str) : Outcome ParseState :=
  match st_pending st with
  | Some d =>
    if str_eqb arg (py "--") then Raise (SystemExit 2)
    else match classify arg with
         | CPositional => store_value d arg st
         | _ => Raise (SystemExit 2)
         end
  | None =>
    if st_dashdash st then Ok (positional arg st)
    else if str_eqb arg (py "--") then Ok (pass_dashdash st)
    else match classify arg with
         | CPositional => Ok (positional arg st)
         | CAmbiguous => Raise (SystemExit 2)
         | CUnknown => Ok (left_over st)
         | COption o DHelp None => Raise (SystemExit 0)
         | COption o DHelp (Some e) =>
           Raise (SystemExit
                    (if str_eqb o (py "-h") && str_bool e
                        && forallb (fun c => (c =? 104)%N) e
                     then 0 else 2))
         | COption o d (Some v) =>
           if takes_value d then store_value d v st else Raise (SystemExit 2)
         | COption o d None =>
           if takes_value d then Ok (await d st) else store_value d [] st
         end
  end.

(** At the end of the words: an option without its value, a missing
    positional and a word left over are errors. *)
Definition finish (st : ParseState) : Outcome Namespace :=
  match st_pending st with
  | Some _ => Raise (SystemExit 2)
  | None =>
    if negb (st_audio st) || st_extras st then Raise (SystemExit 2)
    else Ok (st_ns st)
  end.

Fixpoint parse_words (st : ParseState) (words : list str) : Outcome Namespace :=
  match words with
  | [] => finish st
  | arg :: rest =>
    match step st arg with
    | Ok st' => parse_words st' rest
    | Raise e => Raise e
    end
  end.

(** [parser.parse_args()] on the words after the program's name. *)
Definition parse_args : M Namespace :=
  lift (fun w => parse_words initial_state (argv w)).

Definition load_quantitative_data (path : option Path) : M json :=
  match path with
  | None => mret JNull
  | Some p =>
    text ← read_text p;
    match json_loads text with
    | Some v => mret v
    | None => raise JSONDecodeError
    end
  end.

(** The prompt [main] builds from the arguments (lines 191-201). *)
Definition main_prompt (args : Namespace) (transcript : str)
    (quantitative_data : json) : str :=
  build_analysis_prompt transcript (report_type args) (company args)
    (language args) (detail_level args)
    (negb (no_anonymize args)) (negb (no_confidence_label args))
    (pre_briefing_context args) quantitative_data.

Definition main : M unit :=
  load_dotenv;;
  args ← parse_args;
  found ← path_exists (audio args);
  if negb found then
    raise (FileNotFoundError
             (py "오디오 파일을 찾을 수 없습니다: " ++ path_str (audio args)))
  else
    quantitative_data ← load_quantitative_data (quant_data args);
    client ← OpenAI;
    print (py "[1/3] 오디오를 녹취록으로 변환 중...");;
    transcript ← transcribe_audio client (audio args) (language args);
    print (py "[2/3] 범용 분석 프롬프트로 보고서 생성 중...");;
    let prompt := main_prompt args transcript quantitative_data in
    report ← build_analysis_report client prompt;
    print (py "[3/3] 파일 저장 중...");;
    paths ← save_outputs (output_dir args) transcript report;
    print (nl ++ py "완료!");;
    print (py "- 녹취록: " ++ path_str (fst paths));;
    print (py "- 분석 보고서: " ++ path_str (snd paths)).

End Program.

(** ** The transcript as the specification words it *)

(** A valid segment starts at an offset into the recording: a time
    that is not negative. *)
Definition valid_segment (segment : Segment) : Prop :=
  (0 <= default (0 : Q) (seg_start segment))%Q.

(** A segment gives a line when its trimmed text is not empty. *)
Definition has_text (segment : Segment) : bool :=
  str_bool (strip (default [] (seg_text segment))).

(** ["[mm:ss] 화자미상: text"], minutes and seconds being
    [divmod(floor(start), 60)], each zero-padded to two digits. *)
Definition spec_line (segment : Segment) : str :=
  let '(mm, ss) := divmod (Qfloor (default (0 : Q) (seg_start segment))) 60 in
  py "[" ++ format_02d mm ++ py ":" ++ format_02d ss ++ py "] 화자미상: "
  ++ strip (default [] (seg_text segment)).

Definition spec_lines (segments : list Segment) : list str :=
  map spec_line (List.filter has_text segments).

(** ** Where a string occurs in another *)

Definition contains (needle hay : str) : Prop :=
  exists before after, hay = before ++ needle ++ after.

Fixpoint containsb (needle hay : str) : bool :=
  starts_with needle hay
  || match hay with
     | [] => false
     | _ :: rest => containsb needle rest
     end.

(** A string that does not start, or end, with white space. *)
Definition head_ok (s : str) : Prop :=
  match s with [] => True | c :: _ => isspace c = false end.

Definition last_ok (s : str) : Prop := head_ok (rev s).

(** ** A small world to run the program in *)

Definition hello_response : Response :=
  {| resp_segments :=
       Some [{| seg_start := Some (5 # 1)%Q; seg_text := Some (py "hello") |}];
     resp_text := None |}.

Definition sample_world (words : list str) (response : Response) : World :=
  {| fs := {[ path_of_str (py "meeting.mp3") := File (Binary [73; 68; 51]%N) ]};
     environ := {[ py "OPENAI_API_KEY" := py "sk-test" ]};
     dotenv := ∅;
     argv := words;
     clock := fun n =>
       {| year := 2024; month := 3; day := 9;
          hour := 14; minute := 5; second := Z.of_nat n |};
     now_calls := 0;
     speech_to_text := fun _ _ _ => Ok response;
     text_generation := fun _ _ => Ok (py " report ");
     trace := [] |}.

Definition sample_client : Client := OpenAIClient (py "sk-test").

(** A response whose first segment has no [start] and whose second
    has no [text]. *)
Definition sparse_response : Response :=
  {| resp_segments :=
       Some [{| seg_start := None; seg_text := Some (py " hi ") |};
             {| seg_start := Some (7 # 1)%Q; seg_text := None |}];
     resp_text := Some (py "unused") |}.

(** ** Places in the prompt *)

(** The [Quantitative_Data] line, the text under it, the blank line
    and the heading that follow. *)
Definition quantitative_slot (text : str) : str :=
  join nl [py "- Quantitative_Data:"; text; []; py "### 2. INPUT TRANSCRIPT"].

(** The heading of the output templates, the template under it, the
    blank line and the heading that follow. *)
Definition template_slot (template : str) : str :=
  join nl [py "### 4. FINAL OUTPUT TEMPLATES"; template; []; py "### 작성 지침"].

(** The two flag lines, each a whole line. *)
Definition flag_lines (anonymize labeling : str) : str :=
  nl ++ py "- Privacy_Anonymize: " ++ anonymize ++ nl
  ++ py "- Confidence_Labeling: " ++ labeling ++ nl.

(** A JSON document with a Korean key and value. *)
Definition sample_data : json :=
  JDict [(py "매출", JList [JInt 3; JStr (py "증가")])].

(** The namespace of [meeting.mp3 --no-anonymize --no-confidence-label]. *)
Definition both_flags : Namespace :=
  store DNoConfidenceLabel [] (store DNoAnonymize [] (store_audio (py "meeting.mp3") defaults)).

(** A string without the path separator. *)
Definition no_slash (s : str) : bool := forallb (fun c => negb (c =? 47)%N) s.

(** ** Prompts sent *)

(** Run from [w], the computation [m] leaves the command line alone
    and sends the generation service no prompt but ones that satisfy
    [P]. *)
Definition sends_only {A : Type} (P : str -> Prop) (m : M A) (w : World) : Prop :=
  argv (snd (m w)) = argv w
  /\ forall model prompt, EvGenerate model prompt ∈ trace (snd (m w)) ->
                          EvGenerate model prompt ∈ trace w \/ P prompt.

(** ** The transcript line by line *)

(** The line line 36 writes for a segment, from [int(start)]. *)
Definition segment_line (segment : Segment) : str :=
  let start_sec := int (default (0 : Q) (seg_start segment)) in
  let '(mm, ss) := divmod start_sec 60 in
  py "[" ++ format_02d mm ++ py ":" ++ format_02d ss ++ py "] "
  ++ speaker ++ py ": " ++ strip (default [] (seg_text segment)).

Definition is_digit (c : N) : bool := ((48 <=? c) && (c <=? 57))%N.

(** A response whose only segment has blank text, beside a flat text. *)
Definition blank_response : Response :=
  {| resp_segments := Some [{| seg_start := Some (3 # 2)%Q; seg_text := Some (py "  ") |}];
     resp_text := Some (py "flat text") |}.

(** ** Worlds for the saving step *)

(** The sample world with a clock that stands still. *)
Definition still_world : World :=
  {| fs := fs (sample_world [] hello_response);
     environ := environ (sample_world [] hello_response);
     dotenv := dotenv (sample_world [] hello_response);
     argv := [];
     clock := fun _ =>
       {| year := 2024; month := 3; day := 9; hour := 14; minute := 5; second := 0 |};
     now_calls := 0;
     speech_to_text := speech_to_text (sample_world [] hello_response);
     text_generation := text_generation (sample_world [] hello_response);
     trace := [] |}.

(** The sample world with a regular file where the output directory
    should be. *)
Definition blocked_world : World :=
  set_fs (<[path_of_str (py "outputs") := File (Text (py "x"))]>
            (fs (sample_world [] hello_response)))
         (sample_world [] hello_response).

(** ** What a command line names *)

#[global] Instance Dest_eq_dec : EqDecision Dest.
Proof. solve_decision. Defined.

(** The part of a word before its first equals sign. *)
Definition before_equals (word : str) : str :=
  match split_equals word with Some (a, _) => a | None => word end.

(** A word names an option when it begins with a dash and what stands
    before its equals sign is the beginning of one of the option's
    strings. *)
Definition names (d : Dest) (word : str) : bool :=
  match word with
  | 45%N :: _ :: _ =>
    existsb (fun kv => bool_decide (snd kv = d)
                       && starts_with (before_equals word) (fst kv))
            option_strings
  | _ => false
  end.

(** Two namespaces agree on what an option sets. *)
Definition same_at (d : Dest) (a b : Namespace) : Prop :=
  match d with
  | DHelp => True
  | DCompany => company a = company b
  | DLanguage => language a = language b
  | DOutputDir => output_dir a = output_dir b
  | DReportType => report_type a = report_type b
  | DDetailLevel => detail_level a = detail_level b
  | DPreBriefingContext => pre_briefing_context a = pre_briefing_context b
  | DQuantData => quant_data a = quant_data b
  | DNoAnonymize => no_anonymize a = no_anonymize b
  | DNoConfidenceLabel => no_confidence_label a = no_confidence_label b
  end.

(** ** What a run does *)

(** Run from [w], the computation [m] leaves the command line alone
    and adds to the record, which it never shortens, only events that
    satisfy [P]. *)
Definition emits_only {A : Type} (P : Event -> Prop) (m : M A) (w : World) : Prop :=
  argv (snd (m w)) = argv w
  /\ exists new, trace (snd (m w)) = trace w ++ new /\ Forall P new.

(** The events a run on the arguments [args] may add: it tests and
    opens the audio file only, reads the file of quantitative data
    only, calls each service with the model named at the top of the
    program, makes the output directory, and writes only files that
    lie in it and are named for a transcript or a report. *)
Definition allowed (args : Namespace) (ev : Event) : Prop :=
  match ev with
  | EvLoadDotenv | EvNewClient | EvNow | EvPrint _ => True
  | EvExists p | EvOpen p => p = audio args
  | EvReadText p => quant_data args = Some p
  | EvTranscribe model lang => model = TRANSCRIBE_MODEL /\ lang = language args
  | EvGenerate model prompt =>
    model = ANALYSIS_MODEL
    /\ exists transcript quantitative_data,
         prompt = main_prompt args transcript quantitative_data
  | EvMkdir p => p = output_dir args
  | EvWriteText p _ =>
    parent p = output_dir args
    /\ exists ts, name p = py "transcript_" ++ ts ++ py ".txt"
                  \/ name p = py "analysis_report_" ++ ts ++ py ".md"
  end.

(** * Properties *)

(** ** The model at work *)

Example py_hangul : py "화자미상" = [0xD654; 0xC790; 0xBBF8; 0xC0C1]%N.
Proof. reflexivity. Qed.

Example py_pin : py "📌" = [0x1F4CC]%N.
Proof. reflexivity. Qed.

Example strip_unicode_space : strip ([0x3000; 0xA0]%N ++ py "a b" ++ [0x2028; 9]%N) = py "a b".
Proof. reflexivity. Qed.

Example format_02d_examples :
  format_02d 5 = py "05" /\ format_02d 0 = py "00" /\ format_02d 59 = py "59"
  /\ format_02d 100 = py "100" /\ format_02d (-1) = py "-1"
  /\ format_0d 4 (-5) = py "-005".
Proof. repeat split; reflexivity. Qed.

Example encode_basestring_escapes :
  encode_basestring (py "a" ++ [34; 92; 10; 1; 0x7F]%N ++ py " é")
  = dquote ++ py "a\" ++ dquote ++ py "\\\n\u0001" ++ [0x7F]%N ++ py " é" ++ dquote.
Proof. reflexivity. Qed.

Example path_examples :
  path_str (path_of_str (py "a//b/./c/")) = py "a/b/c"
  /\ path_str (path_of_str []) = py "."
  /\ path_str (path_of_str (py "///x")) = py "/x"
  /\ path_str (joinpath (path_of_str (py "outputs")) (py "t.txt")) = py "outputs/t.txt"
  /\ path_str (parent (path_of_str (py "outputs"))) = py ".".
Proof. repeat split; reflexivity. Qed.

Example parse_defaults :
  parse_words (fun _ => false) initial_state [py "meeting.mp3"]
  = Ok (store_audio (py "meeting.mp3") defaults).
Proof. reflexivity. Qed.

Example parse_abbreviation :
  parse_words (fun _ => false) initial_state
    [py "--rep"; py "interview"; py "meeting.mp3"; py "--no-a"]
  = Ok (store DNoAnonymize []
          (store_audio (py "meeting.mp3") (store DReportType (py "interview") defaults))).
Proof. reflexivity. Qed.

Example parse_errors :
  parse_words (fun _ => false) initial_state [] = Raise (SystemExit 2)
  /\ parse_words (fun _ => false) initial_state [py "a.mp3"; py "b.mp3"]
     = Raise (SystemExit 2)
  /\ parse_words (fun _ => false) initial_state [py "a.mp3"; py "--report-type"; py "bogus"]
     = Raise (SystemExit 2)
  /\ parse_words (fun _ => false) initial_state [py "a.mp3"; py "--no"]
     = Raise (SystemExit 2)
  /\ parse_words (fun _ => false) initial_state [py "a.mp3"; py "--company"; py "--"; py "x"]
     = Raise (SystemExit 2)
  /\ parse_words (fun _ => false) initial_state [py "a.mp3"; py "--bogus"; py "-h"]
     = Raise (SystemExit 0).
Proof. repeat split; reflexivity. Qed.

Example parse_dashdash :
  parse_words (fun _ => false) initial_state [py "--"; py "--report-type"]
  = Ok (store_audio (py "--report-type") defaults).
Proof. reflexivity. Qed.

(** ** Strings *)

Lemma lstrip_head_ok s : head_ok (lstrip s).
Proof.
  induction s as [|c s IH]; simpl; [exact I|].
  destruct (isspace c) eqn:E; [exact IH | simpl; exact E].
Qed.

Lemma lstrip_id s : head_ok s -> lstrip s = s.
Proof. destruct s as [|c s]; simpl; [reflexivity|]. intros ->. reflexivity. Qed.

Lemma lstrip_app_nonspace l c t :
  isspace c = false -> lstrip (l ++ c :: t) = lstrip l ++ c :: t.
Proof.
  intros Hc. induction l as [|x l IH]; simpl.
  - rewrite Hc. reflexivity.
  - destruct (isspace x); [exact IH | reflexivity].
Qed.

Lemma rstrip_cons_nonspace c r :
  isspace c = false -> rstrip (c :: r) = c :: rstrip r.
Proof.
  intros Hc. unfold rstrip. simpl rev.
  rewrite lstrip_app_nonspace by exact Hc.
  rewrite rev_app_distr. reflexivity.
Qed.

Lemma rstrip_id s : last_ok s -> rstrip s = s.
Proof.
  intros H. unfold rstrip. rewrite lstrip_id by exact H. apply rev_involutive.
Qed.

Lemma strip_id s : head_ok s -> last_ok s -> strip s = s.
Proof.
  intros Hh Hl. unfold strip. rewrite lstrip_id by exact Hh. apply rstrip_id, Hl.
Qed.

Lemma strip_edges s : head_ok (strip s) /\ last_ok (strip s).
Proof.
  unfold strip. split.
  - pose proof (lstrip_head_ok s) as H. destruct (lstrip s) as [|c r]; [exact I|].
    simpl in H. rewrite rstrip_cons_nonspace by exact H. exact H.
  - unfold last_ok, rstrip. rewrite rev_involutive. apply lstrip_head_ok.
Qed.

Lemma head_ok_app a b : a <> [] -> head_ok a -> head_ok (a ++ b).
Proof. destruct a; [congruence | simpl; auto]. Qed.

Lemma last_ok_app a b : b <> [] -> last_ok b -> last_ok (a ++ b).
Proof.
  unfold last_ok. intros Hb H. rewrite rev_app_distr.
  apply head_ok_app; [|exact H].
  intros E. apply Hb. rewrite <- (rev_involutive b), E. reflexivity.
Qed.

Lemma join_cons sep x y l : join sep (x :: y :: l) = x ++ sep ++ join sep (y :: l).
Proof. reflexivity. Qed.

Lemma join_snoc sep l x : l <> [] -> join sep (l ++ [x]) = join sep l ++ sep ++ x.
Proof.
  induction l as [|a l IH]; [congruence|]. intros _.
  destruct l as [|b l]; [reflexivity|].
  change ((a :: b :: l) ++ [x]) with (a :: b :: (l ++ [x])).
  rewrite !join_cons. change (b :: l ++ [x]) with ((b :: l) ++ [x]).
  rewrite IH by discriminate. rewrite <- !app_assoc. reflexivity.
Qed.

Lemma join_nonempty sep (y : str) l : y <> [] -> join sep (y :: l) <> [].
Proof.
  intros Hy. destruct l as [|z l]; [exact Hy|].
  rewrite join_cons. destruct y; [congruence | discriminate].
Qed.

(** Lines that neither start nor end with white space join into a
    text that [strip] leaves as it is. *)
Lemma join_edges (lines : list str) :
  Forall (fun l => l <> [] /\ head_ok l /\ last_ok l) lines ->
  head_ok (join nl lines) /\ last_ok (join nl lines).
Proof.
  induction 1 as [|x l (Hx & Hh & Hl) HF IH]; [split; exact I|].
  destruct l as [|y l]; [split; assumption|].
  rewrite join_cons. destruct IH as [IH1 IH2]. split.
  - apply head_ok_app; assumption.
  - rewrite app_assoc. apply last_ok_app; [|exact IH2].
    apply join_nonempty. inversion HF as [|? ? (Hy & _) _]; exact Hy.
Qed.

(** ** The transcript *)

Lemma int_floor (x : Q) : (0 <= x)%Q -> int x = Qfloor x.
Proof.
  destruct x as [n d]. unfold int, Qfloor, Qle. simpl. intros H.
  apply Z.quot_div_nonneg; lia.
Qed.

(** Below zero the two part: [int] rounds toward zero, the floor
    rounds down. *)
Example int_of_negative : int (-1 # 2) = 0 /\ Qfloor (-1 # 2) = -1.
Proof. split; reflexivity. Qed.

Lemma segment_step_spec lines segment :
  valid_segment segment ->
  segment_step lines segment
  = if has_text segment then lines ++ [spec_line segment] else lines.
Proof.
  intros H. unfold segment_step, spec_line, has_text.
  rewrite (int_floor _ H). unfold divmod.
  destruct (str_bool _); reflexivity.
Qed.

Lemma fold_segment_step segments :
  Forall valid_segment segments ->
  forall lines, fold_left segment_step segments lines = lines ++ spec_lines segments.
Proof.
  induction 1 as [|s l Hs _ IH]; intros lines; simpl.
  - rewrite app_nil_r. reflexivity.
  - rewrite IH, (segment_step_spec _ _ Hs). unfold spec_lines. simpl.
    destruct (has_text s); simpl; [rewrite <- app_assoc|]; reflexivity.
Qed.

Lemma spec_line_edges segment :
  has_text segment = true ->
  spec_line segment <> [] /\ head_ok (spec_line segment) /\ last_ok (spec_line segment).
Proof.
  unfold has_text, spec_line, divmod. intros Ht.
  set (text := strip (default [] (seg_text segment))) in *.
  split; [discriminate|]. split; [reflexivity|].
  rewrite !app_assoc. apply last_ok_app.
  - destruct text; [discriminate Ht | discriminate].
  - apply strip_edges.
Qed.

Lemma spec_lines_strip segments :
  strip (join nl (spec_lines segments)) = join nl (spec_lines segments).
Proof.
  assert (Forall (fun l => l <> [] /\ head_ok l /\ last_ok l) (spec_lines segments)) as H.
  { unfold spec_lines. apply List.Forall_forall. intros l Hl.
    apply in_map_iff in Hl as (s & <- & Hs).
    apply filter_In in Hs as [_ Hs]. apply spec_line_edges, Hs. }
  apply join_edges in H as [H1 H2]. apply strip_id; assumption.
Qed.

(** When the file opens and the service answers, [transcribe_audio]
    returns the formatted response, having opened the file and called
    the service once. *)
Lemma transcribe_audio_run client audio_path language w audio_file response :
  node_at (fs w) audio_path = Some (File audio_file) ->
  speech_to_text w TRANSCRIBE_MODEL audio_file language = Ok response ->
  transcribe_audio client audio_path language w
  = (Ok (transcript_of_response response),
     set_trace (trace w ++ [EvOpen audio_path; EvTranscribe TRANSCRIBE_MODEL language]) w).
Proof.
  intros Hfile Hcall.
  unfold transcribe_audio, open_rb, transcriptions_create, mbind, M_bind, emit, lift.
  simpl. rewrite Hfile. simpl. rewrite Hcall. unfold mret, M_ret, set_trace. simpl.
  rewrite <- app_assoc. reflexivity.
Qed.



(** C3. When the response has no segment list, or an empty one,
    [transcribe_audio] returns the flat text field stripped, and the
    empty string when that field is missing too. *)
Theorem transcribe_audio_flat_text
    (client : Client) (audio_path : Path) (language : str) (w : World)
    (audio_file : Content) (response : Response) :
  node_at (fs w) audio_path = Some (File audio_file) ->
  speech_to_text w TRANSCRIBE_MODEL audio_file language = Ok response ->
  resp_segments response = None \/ resp_segments response = Some [] ->
  fst (transcribe_audio client audio_path language w)
    = Ok (strip (default [] (resp_text response)))
  /\ (resp_text response = None ->
      fst (transcribe_audio client audio_path language w) = Ok []).
Proof.
  intros Hfile Hcall Hseg.
  rewrite (transcribe_audio_run _ _ _ _ _ _ Hfile Hcall). simpl.
  unfold transcript_of_response.
  assert (match resp_segments response with
          | None | Some [] => true | _ => false end = true) as E
    by (destruct Hseg as [-> | ->]; reflexivity).
  destruct (resp_segments response) as [[|s l]|]; try discriminate E.
  - split; [reflexivity|]. intros ->. reflexivity.
  - split; [reflexivity|]. intros ->. reflexivity.
Qed.

Lemma transcribe_audio_flat_text_witness :
  fst (transcribe_audio sample_client (path_of_str (py "meeting.mp3")) (py "ko")
         (sample_world [] {| resp_segments := Some []; resp_text := Some (py "  안녕 ") |}))
  = Ok (py "안녕").
Proof.
  destruct (transcribe_audio_flat_text sample_client (path_of_str (py "meeting.mp3"))
              (py "ko")
              (sample_world [] {| resp_segments := Some []; resp_text := Some (py "  안녕 ") |})
              (Binary [73; 68; 51]%N)
              {| resp_segments := Some []; resp_text := Some (py "  안녕 ") |})
    as [H _].
  - vm_compute. reflexivity.
  - reflexivity.
  - right. reflexivity.
  - rewrite H. vm_compute. reflexivity.
Defined.

Lemma fold_segment_step_app before after lines :
  fold_left segment_step (before ++ after) lines
  = fold_left segment_step after (fold_left segment_step before lines).
Proof. apply fold_left_app. Qed.

(** C10. [transcribe_audio] returns a transcript whatever fields the
    segments lack: a segment without [start] is formatted as one that
    starts at 0, ["[00:00]"], and a segment without [text] adds no
    line. *)
Theorem transcribe_audio_missing_fields :
  (forall client audio_path language w audio_file response,
      node_at (fs w) audio_path = Some (File audio_file) ->
      speech_to_text w TRANSCRIBE_MODEL audio_file language = Ok response ->
      exists transcript,
        fst (transcribe_audio client audio_path language w) = Ok transcript)
  /\ (forall lines text,
        segment_step lines {| seg_start := None; seg_text := text |}
        = segment_step lines {| seg_start := Some (0 # 1)%Q; seg_text := text |})
  /\ (forall lines t,
        strip t <> [] ->
        segment_step lines {| seg_start := None; seg_text := Some t |}
        = lines ++ [py "[00:00] 화자미상: " ++ strip t])
  /\ (forall lines start,
        segment_step lines {| seg_start := start; seg_text := None |} = lines)
  /\ (forall before after segment,
        seg_text segment = None ->
        fold_left segment_step (before ++ segment :: after) []
        = fold_left segment_step (before ++ after) []).
Proof.
  assert (forall lines start,
             segment_step lines {| seg_start := start; seg_text := None |} = lines)
    as Hnotext by reflexivity.
  split; [|split; [|split; [|split]]].
  - intros client audio_path language w audio_file response Hfile Hcall.
    exists (transcript_of_response response).
    rewrite (transcribe_audio_run _ _ _ _ _ _ Hfile Hcall). reflexivity.
  - reflexivity.
  - intros lines t Ht. unfold segment_step. simpl.
    destruct (strip t); [congruence | reflexivity].
  - exact Hnotext.
  - intros before after [start text] Htext. simpl in Htext. subst text.
    rewrite !fold_segment_step_app. simpl. rewrite Hnotext. reflexivity.
Qed.

Lemma transcribe_audio_missing_fields_witness :
  (exists transcript,
      fst (transcribe_audio sample_client (path_of_str (py "meeting.mp3")) (py "ko")
             (sample_world [] sparse_response)) = Ok transcript)
  /\ fst (transcribe_audio sample_client (path_of_str (py "meeting.mp3")) (py "ko")
            (sample_world [] sparse_response))
     = Ok (py "[00:00] 화자미상: hi").
Proof.
  split.
  - apply (proj1 transcribe_audio_missing_fields sample_client
             (path_of_str (py "meeting.mp3")) (py "ko")
             (sample_world [] sparse_response) (Binary [73; 68; 51]%N) sparse_response).
    + vm_compute. reflexivity.
    + reflexivity.
  - vm_compute. reflexivity.
Defined.

(** ** The prompt *)

Lemma join_app sep (a b : list str) :
  a <> [] -> b <> [] -> join sep (a ++ b) = join sep a ++ sep ++ join sep b.
Proof.
  intros Ha Hb. induction a as [|x a IH]; [congruence|].
  destruct a as [|y a].
  - destruct b as [|z b]; [congruence | reflexivity].
  - change ((x :: y :: a) ++ b) with (x :: y :: (a ++ b)).
    rewrite !join_cons. change (y :: a ++ b) with ((y :: a) ++ b).
    rewrite IH by discriminate. rewrite <- !app_assoc. reflexivity.
Qed.

Lemma head_ok_join a l : a <> [] -> head_ok a -> head_ok (join nl (a :: l)).
Proof.
  intros Ha H. destruct l; [exact H|]. rewrite join_cons. apply head_ok_app; assumption.
Qed.

Lemma last_ok_join (l : list str) b :
  last l = Some b -> b <> [] -> last_ok b -> last_ok (join nl l).
Proof.
  intros Hl Hb Hok. destruct (last_is_Some l) as [_ Hs].
  destruct l as [|x l] using rev_ind; [discriminate Hl|].
  rewrite last_snoc in Hl. injection Hl as ->.
  destruct l as [|y l]; [exact Hok|].
  rewrite join_snoc by discriminate. rewrite app_assoc.
  apply last_ok_app; assumption.
Qed.

(** A text between two line breaks, starting and ending with
    something else than white space, is what [strip] leaves. *)
Lemma strip_framed (l : list str) :
  l <> [] -> head_ok (join nl l) -> last_ok (join nl l) ->
  strip (join nl ([] :: l ++ [[]])) = join nl l.
Proof.
  intros Hl Hh Ht.
  assert (join nl ([] :: l ++ [[]]) = nl ++ join nl l ++ nl) as ->.
  { destruct l as [|x l]; [congruence|].
    change ([] :: (x :: l) ++ [[]]) with ([] :: x :: (l ++ [[]])).
    rewrite join_cons. change (x :: l ++ [[]]) with ((x :: l) ++ [[]]).
    rewrite join_snoc by discriminate. rewrite app_nil_r. reflexivity. }
  set (body := join nl l) in *.
  unfold strip. change (lstrip (nl ++ body ++ nl)) with (lstrip (body ++ nl)).
  destruct body as [|c r] eqn:E; [reflexivity|].
  rewrite lstrip_id by exact Hh.
  unfold rstrip. rewrite rev_app_distr.
  change (lstrip (rev nl ++ rev (c :: r))) with (lstrip (rev (c :: r))).
  apply (rstrip_id (c :: r)), Ht.
Qed.

(** The prompt is its lines joined, the framing line breaks gone. *)
Lemma build_analysis_prompt_eq
    transcript report_type company_name language_output detail_level
    privacy_anonymize confidence_labeling pre_briefing_context quantitative_data :
  build_analysis_prompt transcript report_type company_name language_output
    detail_level privacy_anonymize confidence_labeling pre_briefing_context
    quantitative_data
  = join nl
      (prompt_lines transcript company_name language_output detail_level
         privacy_anonymize confidence_labeling pre_briefing_context
         (if json_bool quantitative_data then json_dumps quantitative_data
          else py "없음")
         (if str_eqb report_type (py "meeting") then meeting_template
          else interview_template)).
Proof.
  unfold build_analysis_prompt. apply strip_framed.
  - discriminate.
  - apply head_ok_join; [discriminate | reflexivity].
  - apply (last_ok_join _ (py "- 발언 인용은 타임스탬프를 포함해 제시"));
      [reflexivity | discriminate | reflexivity].
Qed.

Lemma contains_refl s : contains s s.
Proof. exists [], []. rewrite app_nil_r. reflexivity. Qed.

Lemma contains_app_l n a h : contains n h -> contains n (a ++ h).
Proof.
  intros (x & y & ->). exists (a ++ x), y. rewrite <- app_assoc. reflexivity.
Qed.

Lemma contains_app_r n h b : contains n h -> contains n (h ++ b).
Proof.
  intros (x & y & ->). exists x, (y ++ b). rewrite <- !app_assoc. reflexivity.
Qed.

(** Consecutive lines of a text, joined, occur in the text. *)
Lemma contains_join_lines (l : list str) (k n : nat) :
  contains (join nl (take n (drop k l))) (join nl l).
Proof.
  rewrite <- (take_drop k l) at 2. rewrite <- (take_drop n (drop k l)) at 2.
  set (a := take k l). set (m := take n (drop k l)). set (b := drop n (drop k l)).
  destruct m as [|m0 m'] eqn:Em; [exists [], (join nl (a ++ b)); reflexivity|].
  rewrite <- Em. assert (m <> []) as Hm by (rewrite Em; discriminate).
  destruct a as [|a0 a'], b as [|b0 b'].
  - rewrite app_nil_r. apply contains_refl.
  - simpl app. rewrite join_app by (assumption || discriminate).
    apply contains_app_r, contains_refl.
  - rewrite app_nil_r. rewrite join_app by (assumption || discriminate).
    apply contains_app_l, contains_app_l, contains_refl.
  - rewrite join_app; [|discriminate|destruct m; [congruence|discriminate]].
    rewrite join_app by (assumption || discriminate).
    apply contains_app_l, contains_app_l, contains_app_r, contains_refl.
Qed.

Lemma starts_with_app n after : starts_with n (n ++ after) = true.
Proof.
  unfold starts_with, str_eqb. rewrite take_app_length. apply bool_decide_eq_true. reflexivity.
Qed.

Lemma contains_containsb n h : contains n h -> containsb n h = true.
Proof.
  intros (before & after & ->). induction before as [|c before IH].
  - simpl app. destruct (n ++ after) eqn:E; simpl; rewrite <- ?E, starts_with_app; reflexivity.
  - simpl. rewrite IH. apply orb_true_r.
Qed.

Lemma contains_trans a b c : contains a b -> contains b c -> contains a c.
Proof.
  intros (x & y & ->) (x' & y' & ->). exists (x' ++ x), (y ++ y').
  rewrite <- !app_assoc. reflexivity.
Qed.

Lemma escape_char_plain (c : N) :
  (32 <= c)%N -> c <> 34%N -> c <> 92%N -> escape_char c = [c].
Proof.
  intros Hc H34 H92. unfold escape_char.
  repeat match goal with
         | |- context [(c =? ?k)%N] => destruct (N.eqb_spec c k); [lia|]
         end.
  destruct (N.ltb_spec c 32); [lia | reflexivity].
Qed.

(** A present but empty object is rendered as the marker, not as
    its serialization [{}]. *)
Lemma quantitative_empty_object_counterexample :
  JDict [] <> JNull
  /\ ~ contains (quantitative_slot (json_dumps (JDict [])))
         (build_analysis_prompt (py "hello") (py "meeting") (py "ACME") (py "ko")
            (py "Summary") true true (py "none") (JDict []))
  /\ contains (quantitative_slot (py "없음"))
       (build_analysis_prompt (py "hello") (py "meeting") (py "ACME") (py "ko")
          (py "Summary") true true (py "none") (JDict [])).
Proof.
  split; [discriminate|]. split.
  - intros H. apply contains_containsb in H. vm_compute in H. discriminate H.
  - rewrite build_analysis_prompt_eq.
    apply (contains_join_lines (prompt_lines _ _ _ _ _ _ _ _ _) 9 4).
Qed.

(** C2, amended. The text in the [Quantitative_Data] slot follows the
    truth value of [quantitative_data]: the marker ["없음"] when it is
    [None] or another value Python counts as false (an empty object
    among them), and otherwise the data as [json.dumps] writes it with
    [indent=2] and [ensure_ascii=False]: one item per line behind two
    spaces per level, code points outside ASCII written as they are. *)
Theorem quantitative_data_slot
    (transcript report_type company_name language_output detail_level : str)
    (privacy_anonymize confidence_labeling : bool)
    (pre_briefing_context : str) (quantitative_data : json) :
  let prompt :=
    build_analysis_prompt transcript report_type company_name language_output
      detail_level privacy_anonymize confidence_labeling pre_briefing_context
      quantitative_data in
  (json_bool quantitative_data = false ->
   contains (quantitative_slot (py "없음")) prompt)
  /\ (json_bool quantitative_data = true ->
      contains (quantitative_slot (json_dumps quantitative_data)) prompt)
  /\ json_bool JNull = false
  /\ json_bool (JDict []) = false
  /\ (forall c, (128 <= c)%N -> escape_char c = [c])
  /\ (forall k v,
        json_dumps (JDict [(k, v)])
        = py "{" ++ nl ++ py "  " ++ encode_basestring k ++ py ": "
          ++ json_encode 1 v ++ nl ++ py "}").
Proof.
  intros prompt. subst prompt. rewrite build_analysis_prompt_eq.
  split; [|split; [|split; [|split; [|split]]]].
  - intros ->. apply (contains_join_lines (prompt_lines _ _ _ _ _ _ _ _ _) 9 4).
  - intros ->. apply (contains_join_lines (prompt_lines _ _ _ _ _ _ _ _ _) 9 4).
  - reflexivity.
  - reflexivity.
  - intros c Hc. apply escape_char_plain; lia.
  - intros k v. unfold json_dumps. cbn [json_encode map join fst snd].
    rewrite <- !app_assoc. reflexivity.
Qed.

Lemma quantitative_data_slot_witness :
  contains (quantitative_slot (json_dumps sample_data))
    (build_analysis_prompt (py "hello") (py "meeting") (py "ACME") (py "ko")
       (py "Summary") true true (py "none") sample_data)
  /\ json_dumps sample_data
     = join nl [py "{";
                py "  " ++ dquote ++ py "매출" ++ dquote ++ py ": [";
                py "    3,";
                py "    " ++ dquote ++ py "증가" ++ dquote;
                py "  ]";
                py "}"].
Proof.
  split.
  - apply (proj1 (proj2 (quantitative_data_slot (py "hello") (py "meeting") (py "ACME")
                           (py "ko") (py "Summary") true true (py "none") sample_data))).
    reflexivity.
  - vm_compute. reflexivity.
Defined.





Lemma flag_lines_in_prompt
    transcript report_type company_name language_output detail_level
    privacy_anonymize confidence_labeling pre_briefing_context quantitative_data :
  contains (flag_lines (lower (str_of_bool privacy_anonymize))
                       (lower (str_of_bool confidence_labeling)))
    (build_analysis_prompt transcript report_type company_name language_output
       detail_level privacy_anonymize confidence_labeling pre_briefing_context
       quantitative_data).
Proof.
  rewrite build_analysis_prompt_eq.
  eapply contains_trans;
    [|apply (contains_join_lines (prompt_lines _ _ _ _ _ _ _ _ _) 5 4)].
  exists (py "- Output_Detail_Level: " ++ dquote ++ detail_level ++ dquote),
         (py "- Pre_briefing_Context: " ++ dquote ++ pre_briefing_context ++ dquote).
  unfold flag_lines, prompt_lines. cbn [firstn skipn join].
  rewrite <- !app_assoc. reflexivity.
Qed.

(** ** The command line *)

Lemma store_value_report_type d v st st' :
  store_value d v st = Ok st' ->
  report_type (st_ns st') = report_type (st_ns st)
  \/ report_type (st_ns st') ∈ [py "meeting"; py "interview"].
Proof.
  unfold store_value. destruct d; simpl; intros H;
    try (injection H as <-; left; reflexivity).
  - destruct (bool_decide _) eqn:E; [|discriminate H].
    injection H as <-. right. apply bool_decide_eq_true in E. exact E.
  - destruct (bool_decide _); [|discriminate H].
    injection H as <-. left. reflexivity.
Qed.

(** One word of the command line leaves the report type among the
    choices. *)
Lemma step_report_type neg st arg st' :
  step neg st arg = Ok st' ->
  report_type (st_ns st) ∈ [py "meeting"; py "interview"] ->
  report_type (st_ns st') ∈ [py "meeting"; py "interview"].
Proof.
  intros Hstep Hinv.
  assert (forall d v, store_value d v st = Ok st' ->
                      report_type (st_ns st') ∈ [py "meeting"; py "interview"]) as Hstore.
  { intros d v H. apply store_value_report_type in H as [-> | H]; assumption. }
  unfold step in Hstep.
  destruct (st_pending st) as [d|].
  - destruct (str_eqb arg (py "--")); [discriminate Hstep|].
    destruct (classify neg arg); try discriminate Hstep. eapply Hstore, Hstep.
  - destruct (st_dashdash st).
    { injection Hstep as <-. unfold positional. destruct (st_audio st); exact Hinv. }
    destruct (str_eqb arg (py "--")); [injection Hstep as <-; exact Hinv|].
    destruct (classify neg arg) as [|o d [e|]| |]; try discriminate Hstep.
    + injection Hstep as <-. unfold positional. destruct (st_audio st); exact Hinv.
    + destruct d; simpl in Hstep; try discriminate Hstep; eapply Hstore, Hstep.
    + destruct d; simpl in Hstep; try discriminate Hstep;
        try (injection Hstep as <-; exact Hinv); eapply Hstore, Hstep.
    + injection Hstep as <-. exact Hinv.
Qed.

Lemma parse_words_report_type neg words : forall st args,
  parse_words neg st words = Ok args ->
  report_type (st_ns st) ∈ [py "meeting"; py "interview"] ->
  report_type args ∈ [py "meeting"; py "interview"].
Proof.
  induction words as [|arg rest IH]; intros st args Hparse Hinv; simpl in Hparse.
  - unfold finish in Hparse. destruct (st_pending st); [discriminate Hparse|].
    destruct (_ || _); [discriminate Hparse|]. injection Hparse as <-. exact Hinv.
  - destruct (step neg st arg) as [st'|e] eqn:Hstep; [|discriminate Hparse].
    eapply IH; [exact Hparse|]. eapply step_report_type; eassumption.
Qed.

(** ** The run *)

(** C6. When the audio path does not exist, [main] raises
    [FileNotFoundError] having done two things only, loading the
    [.env] file and testing the path: no file is read, no client is
    made, no service is called, and the files are as they were. *)
Theorem main_missing_audio (json_loads : str -> option json)
    (negative_number_like : str -> bool) (w : World) (args : Namespace) :
  parse_words negative_number_like initial_state (argv w) = Ok args ->
  node_at (fs w) (audio args) = None ->
  fst (main json_loads negative_number_like w)
    = Raise (FileNotFoundError
               (py "오디오 파일을 찾을 수 없습니다: " ++ path_str (audio args)))
  /\ trace (snd (main json_loads negative_number_like w))
     = trace w ++ [EvLoadDotenv; EvExists (audio args)]
  /\ fs (snd (main json_loads negative_number_like w)) = fs w.
Proof.
  intros Hparse Hnode.
  unfold main, load_dotenv, parse_args, path_exists, mbind, M_bind, emit, act, lift.
  simpl. rewrite Hparse. simpl. rewrite Hnode.
  rewrite bool_decide_eq_false_2 by (intros [x Hx]; discriminate Hx).
  simpl. rewrite <- app_assoc. repeat split.
Qed.

Lemma main_missing_audio_witness :
  trace (snd (main (fun _ => None) (fun _ => false)
                (sample_world [py "missing.mp3"; py "--quant-data"; py "q.json"]
                   hello_response)))
  = [EvLoadDotenv; EvExists (path_of_str (py "missing.mp3"))].
Proof.
  destruct (main_missing_audio (fun _ => None) (fun _ => false)
              (sample_world [py "missing.mp3"; py "--quant-data"; py "q.json"]
                 hello_response)
              (store DQuantData (py "q.json") (store_audio (py "missing.mp3") defaults)))
    as (_ & H & _).
  - vm_compute. reflexivity.
  - vm_compute. reflexivity.
  - rewrite H. reflexivity.
Defined.


(** ** What a run sends to the generation service *)

Lemma sends_only_ret {A} P (a : A) w : sends_only P (mret a : M A) w.
Proof. split; [reflexivity | intros mo p Hp; left; exact Hp]. Qed.

Lemma sends_only_raise {A} P e w : sends_only P (raise e : M A) w.
Proof. split; [reflexivity | intros mo p Hp; left; exact Hp]. Qed.

Lemma sends_only_lift {A} P (f : World -> Outcome A) w : sends_only P (lift f) w.
Proof. split; [reflexivity | intros mo p Hp; left; exact Hp]. Qed.

Lemma sends_only_act {A} P (f : World -> Outcome A * World) w :
  (forall w0, argv (snd (f w0)) = argv w0 /\ trace (snd (f w0)) = trace w0) ->
  sends_only P (act f) w.
Proof.
  intros H. destruct (H w) as [Ha Ht]. split; [exact Ha|].
  unfold act. rewrite Ht. intros mo p Hp. left. exact Hp.
Qed.

Lemma sends_only_emit P ev w :
  (forall mo p, ev = EvGenerate mo p -> P p) -> sends_only P (emit ev) w.
Proof.
  intros H. split; [reflexivity|]. simpl. intros mo p Hp.
  apply elem_of_app in Hp as [Hp | Hp]; [left; exact Hp|].
  apply list_elem_of_singleton in Hp. right. apply (H mo). symmetry. exact Hp.
Qed.

Lemma sends_only_bind {A B} P (m : M A) (k : A -> M B) w :
  sends_only P m w ->
  (forall a w', m w = (Ok a, w') -> argv w' = argv w -> sends_only P (k a) w') ->
  sends_only P (m ≫= k) w.
Proof.
  intros [Ha Hm] Hk. unfold sends_only, mbind, M_bind in *.
  destruct (m w) as [[a|e] w'] eqn:E; simpl in *.
  - destruct (Hk a w' eq_refl Ha) as [Ha' Hk']. split; [congruence|].
    intros mo p Hp. destruct (Hk' mo p Hp) as [H | H]; [apply Hm, H | right; exact H].
  - split; [exact Ha | exact Hm].
Qed.

Create HintDb effects.

#[local] Hint Resolve sends_only_ret sends_only_raise sends_only_lift : effects.
#[local] Hint Extern 1 (sends_only _ (emit _) _) =>
  apply sends_only_emit; intros ? ? ?; discriminate : effects.
#[local] Hint Extern 2 (sends_only _ (_ ≫= _) _) =>
  apply sends_only_bind; [|intros ? ? _ _] : effects.

Lemma load_dotenv_quiet P w : sends_only P load_dotenv w.
Proof.
  unfold load_dotenv. apply sends_only_bind; [auto with effects | intros ? ? _ _].
  apply sends_only_act. intros w0. split; reflexivity.
Qed.

Lemma path_exists_quiet P p w : sends_only P (path_exists p) w.
Proof. unfold path_exists. auto with effects. Qed.

Lemma read_text_quiet P p w : sends_only P (read_text p) w.
Proof. unfold read_text. auto with effects. Qed.

Lemma open_rb_quiet P p w : sends_only P (open_rb p) w.
Proof. unfold open_rb. auto with effects. Qed.

Lemma mkdir_quiet P p w : sends_only P (mkdir p) w.
Proof.
  unfold mkdir. apply sends_only_bind; [auto with effects | intros ? ? _ _].
  apply sends_only_act. intros w0. destruct (List.find _ _); split; reflexivity.
Qed.

Lemma write_text_quiet P p data w : sends_only P (write_text p data) w.
Proof.
  unfold write_text. apply sends_only_bind; [auto with effects | intros ? ? _ _].
  apply sends_only_act. intros w0.
  destruct (node_at (fs w0) p) as [[c|]|], (node_at (fs w0) (parent p)) as [[c'|]|],
    (encodable data); split; reflexivity.
Qed.

Lemma datetime_now_quiet P w : sends_only P datetime_now w.
Proof.
  unfold datetime_now. apply sends_only_bind; [auto with effects | intros ? ? _ _].
  apply sends_only_act. intros w0. split; reflexivity.
Qed.

Lemma OpenAI_quiet P w : sends_only P OpenAI w.
Proof. unfold OpenAI. auto with effects. Qed.

Lemma print_quiet P line w : sends_only P (print line) w.
Proof. unfold print. auto with effects. Qed.

#[local] Hint Resolve load_dotenv_quiet path_exists_quiet read_text_quiet open_rb_quiet
  mkdir_quiet write_text_quiet datetime_now_quiet OpenAI_quiet print_quiet : effects.

Lemma transcribe_audio_quiet P client audio_path language w :
  sends_only P (transcribe_audio client audio_path language) w.
Proof. unfold transcribe_audio, transcriptions_create. auto 10 with effects. Qed.

Lemma save_outputs_quiet P output_dir transcript report w :
  sends_only P (save_outputs output_dir transcript report) w.
Proof. unfold save_outputs. auto 10 with effects. Qed.

Lemma load_quantitative_data_quiet P json_loads path w :
  sends_only P (load_quantitative_data json_loads path) w.
Proof.
  unfold load_quantitative_data. destruct path as [p|]; [|auto with effects].
  apply sends_only_bind; [auto with effects|]. intros text w' _ _.
  destruct (json_loads text); auto with effects.
Qed.

Lemma build_analysis_report_sends (P : str -> Prop) client prompt w :
  P prompt -> sends_only P (build_analysis_report client prompt) w.
Proof.
  intros HP. unfold build_analysis_report, responses_create.
  apply sends_only_bind; [|auto with effects].
  apply sends_only_bind; [|auto with effects].
  apply sends_only_emit. intros mo p [= _ <-]. exact HP.
Qed.

#[local] Hint Resolve transcribe_audio_quiet save_outputs_quiet
  load_quantitative_data_quiet : effects.

(** Every prompt a run of [main] sends to the generation service is
    the one built from the arguments parsed from the command line. *)
Lemma main_sends json_loads negative_number_like w :
  sends_only
    (fun prompt => exists args transcript quantitative_data,
         parse_words negative_number_like initial_state (argv w) = Ok args
         /\ prompt = main_prompt args transcript quantitative_data)
    (main json_loads negative_number_like) w.
Proof.
  unfold main.
  apply sends_only_bind; [auto with effects|]. intros _ w1 _ Hargv.
  apply sends_only_bind; [unfold parse_args; auto with effects|].
  intros args w2 Hparse _. unfold parse_args, lift in Hparse.
  injection Hparse as Hparse _. rewrite Hargv in Hparse.
  apply sends_only_bind; [auto with effects|]. intros found w3 _ _.
  destruct found; simpl; [|auto with effects].
  apply sends_only_bind; [auto with effects|]. intros q w4 _ _.
  apply sends_only_bind; [auto with effects|]. intros client w5 _ _.
  apply sends_only_bind; [auto with effects|]. intros _ w6 _ _.
  apply sends_only_bind; [auto with effects|]. intros transcript w7 _ _.
  apply sends_only_bind; [auto with effects|]. intros _ w8 _ _.
  apply sends_only_bind.
  { apply build_analysis_report_sends. exists args, transcript, q. split; [exact Hparse | reflexivity]. }
  intros report w9 _ _. auto 10 with effects.
Qed.

Lemma main_prompt_flags (args : Namespace) (transcript : str) (quantitative_data : json) :
  contains (flag_lines (lower (str_of_bool (negb (no_anonymize args))))
                       (lower (str_of_bool (negb (no_confidence_label args)))))
    (main_prompt args transcript quantitative_data).
Proof. unfold main_prompt. apply flag_lines_in_prompt. Qed.





(** ** Paths and files *)

Lemma no_slash_app a b : no_slash (a ++ b) = no_slash a && no_slash b.
Proof. apply forallb_app. Qed.

Lemma digits_no_slash d : no_slash (digits_of_uint d) = true.
Proof. induction d; simpl; auto. Qed.

Lemma str_int_no_slash n : no_slash (str_int n) = true.
Proof. unfold str_int. destruct (Z.to_int n); simpl; apply digits_no_slash. Qed.

Lemma format_0d_no_slash k n : no_slash (format_0d k n) = true.
Proof.
  unfold format_0d. rewrite !no_slash_app, str_int_no_slash.
  assert (forall j, no_slash (replicate j 48%N) = true) as ->
    by (induction j; simpl; auto).
  destruct (n <? 0); reflexivity.
Qed.

Lemma strftime_no_slash d : no_slash (strftime d) = true.
Proof.
  unfold strftime, format_02d. rewrite !no_slash_app, !format_0d_no_slash. reflexivity.
Qed.

Lemma split_on_no_slash s : no_slash s = true -> split_on 47 s = [s].
Proof.
  induction s as [|c s IH]; simpl; [reflexivity|].
  intros H. apply andb_prop in H as [Hc Hs].
  destruct (c =? 47)%N; [discriminate Hc|]. rewrite (IH Hs). reflexivity.
Qed.

(** A name without separator that does not start with a dot is one
    component, and joining it to a directory puts it under it. *)
Lemma path_of_str_component c r :
  c <> 47%N -> c <> 46%N -> no_slash r = true ->
  path_of_str (c :: r) = {| root := []; parts := [c :: r] |}.
Proof.
  intros H47 H46 Hr. unfold path_of_str.
  rewrite split_on_no_slash
    by (simpl; destruct (N.eqb_spec c 47); [contradiction | exact Hr]).
  simpl. destruct (N.eqb_spec c 47); [contradiction|].
  unfold component_ok, str_eqb. simpl.
  rewrite bool_decide_eq_false_2; [reflexivity|].
  intros E. apply H46. change (py ".") with [46%N] in E. congruence.
Qed.

Lemma joinpath_component d c r :
  c <> 47%N -> c <> 46%N -> no_slash r = true ->
  joinpath d (c :: r) = {| root := root d; parts := parts d ++ [c :: r] |}.
Proof.
  intros H47 H46 Hr. unfold joinpath.
  rewrite path_of_str_component by assumption. reflexivity.
Qed.

Lemma parent_child d n : parent {| root := root d; parts := parts d ++ [n] |} = d.
Proof. unfold parent. simpl. rewrite removelast_last. destruct d; reflexivity. Qed.

Lemma name_child d n : name {| root := root d; parts := parts d ++ [n] |} = n.
Proof. unfold name. simpl. rewrite last_snoc. reflexivity. Qed.

Lemma find_none_forall {A} (f : A -> bool) l :
  List.find f l = None <-> (forall a, a ∈ l -> f a = false).
Proof.
  split.
  - intros H a Ha. apply list_elem_of_In in Ha. exact (find_none f l H a Ha).
  - induction l as [|x l IH]; intros H; simpl; [reflexivity|].
    rewrite (H x) by apply elem_of_cons, or_introl, eq_refl.
    apply IH. intros a Ha. apply H, elem_of_cons. right. exact Ha.
Qed.

Lemma foldl_make_dir_lookup l : forall f a,
  foldl make_dir f l !! a
  = match f !! a with
    | Some n => Some n
    | None => if bool_decide (a ∈ l) then Some Dir else None
    end.
Proof.
  induction l as [|x l IH]; intros f a; simpl.
  - destruct (f !! a); reflexivity.
  - rewrite IH. unfold make_dir.
    destruct (decide (a = x)) as [->|Hne].
    + rewrite (bool_decide_eq_true_2 (x ∈ x :: l)) by (apply elem_of_cons; left; reflexivity).
      destruct (f !! x) eqn:E; simpl.
      * rewrite E. reflexivity.
      * rewrite lookup_insert_eq. reflexivity.
    + assert (bool_decide (a ∈ x :: l) = bool_decide (a ∈ l)) as ->.
      { apply bool_decide_ext. rewrite elem_of_cons. tauto. }
      destruct (f !! x); simpl; [reflexivity|].
      rewrite lookup_insert_ne by congruence. reflexivity.
Qed.

Lemma ancestors_parts d a :
  a ∈ ancestors d ->
  root a = root d /\ parts a <> [] /\ (length (parts a) <= length (parts d))%nat.
Proof.
  unfold ancestors. intros H. apply list_elem_of_In, in_map_iff in H as (k & <- & Hk).
  apply in_seq in Hk. simpl. split; [reflexivity|]. split.
  - destruct (parts d); [simpl in Hk; lia|]. destruct k; [lia | discriminate].
  - rewrite length_take. lia.
Qed.

Lemma self_in_ancestors d : parts d <> [] -> d ∈ ancestors d.
Proof.
  intros H. unfold ancestors. apply list_elem_of_In, in_map_iff.
  exists (length (parts d)). split.
  - rewrite firstn_all. destruct d; reflexivity.
  - apply in_seq. destruct (parts d); [congruence | simpl; lia].
Qed.

Lemma child_not_ancestor d n : {| root := root d; parts := parts d ++ [n] |} ∉ ancestors d.
Proof.
  intros H. apply ancestors_parts in H as (_ & _ & H). simpl in H.
  rewrite length_app in H. simpl in H. lia.
Qed.

Lemma child_ne d n : {| root := root d; parts := parts d ++ [n] |} <> d.
Proof.
  intros E. apply (f_equal parts), (f_equal length) in E. simpl in E.
  rewrite length_app in E. simpl in E. lia.
Qed.

Lemma node_at_child d n : forall f,
  node_at f {| root := root d; parts := parts d ++ [n] |}
  = f !! {| root := root d; parts := parts d ++ [n] |}.
Proof. intros f. unfold node_at. simpl. destruct (parts d); reflexivity. Qed.

Lemma node_at_insert_ne f p x q : p <> q -> node_at (<[p := x]> f) q = node_at f q.
Proof.
  intros H. unfold node_at. destruct (parts q); [reflexivity|].
  apply lookup_insert_ne, H.
Qed.

Lemma transcript_path_eq d ts :
  no_slash ts = true ->
  joinpath d (py "transcript_" ++ ts ++ py ".txt")
  = {| root := root d; parts := parts d ++ [py "transcript_" ++ ts ++ py ".txt"] |}.
Proof.
  intros H. change (py "transcript_" ++ ts ++ py ".txt")
    with (116%N :: (py "ranscript_" ++ ts ++ py ".txt")).
  apply joinpath_component; [discriminate | discriminate |].
  rewrite !no_slash_app, H. reflexivity.
Qed.

Lemma report_path_eq d ts :
  no_slash ts = true ->
  joinpath d (py "analysis_report_" ++ ts ++ py ".md")
  = {| root := root d; parts := parts d ++ [py "analysis_report_" ++ ts ++ py ".md"] |}.
Proof.
  intros H. change (py "analysis_report_" ++ ts ++ py ".md")
    with (97%N :: (py "nalysis_report_" ++ ts ++ py ".md")).
  apply joinpath_component; [discriminate | discriminate |].
  rewrite !no_slash_app, H. reflexivity.
Qed.

Lemma mkdir_run d w :
  List.find (fun a => is_file (fs w !! a)) (ancestors d) = None ->
  mkdir d w
  = (Ok tt, set_fs (foldl make_dir (fs w) (ancestors d))
              (set_trace (trace w ++ [EvMkdir d]) w)).
Proof.
  intros H. unfold mkdir, mbind, M_bind, emit, act. simpl. rewrite H. reflexivity.
Qed.

Lemma mkdir_inv d w u w' :
  mkdir d w = (Ok u, w') ->
  List.find (fun a => is_file (fs w !! a)) (ancestors d) = None.
Proof.
  unfold mkdir, mbind, M_bind, emit, act. simpl.
  destruct (List.find _ _); [discriminate | reflexivity].
Qed.

Lemma write_text_run p data w :
  node_at (fs w) p <> Some Dir -> node_at (fs w) (parent p) = Some Dir ->
  encodable data = true ->
  write_text p data w
  = (Ok tt, set_fs (<[p := File (Text data)]> (fs w))
              (set_trace (trace w ++ [EvWriteText p data]) w)).
Proof.
  intros Hp Hparent Henc. unfold write_text, mbind, M_bind, emit, act. simpl.
  rewrite Hparent, Henc. destruct (node_at (fs w) p) as [[c|]|]; congruence.
Qed.

Lemma write_text_inv p data w u w' :
  write_text p data w = (Ok u, w') ->
  node_at (fs w) p <> Some Dir /\ node_at (fs w) (parent p) = Some Dir
  /\ encodable data = true.
Proof.
  unfold write_text, mbind, M_bind, emit, act. simpl.
  destruct (node_at (fs w) p) as [[c|]|], (node_at (fs w) (parent p)) as [[c'|]|],
    (encodable data); intros H; try discriminate H; repeat split; discriminate.
Qed.

Lemma bind_run {A B} (m : M A) (k : A -> M B) w a w' :
  m w = (Ok a, w') -> (m ≫= k) w = k a w'.
Proof. intros H. unfold mbind, M_bind. rewrite H. reflexivity. Qed.

Lemma bind_inv {A B} (m : M A) (k : A -> M B) w b w'' :
  (m ≫= k) w = (Ok b, w'') ->
  exists a w', m w = (Ok a, w') /\ k a w' = (Ok b, w'').
Proof.
  unfold mbind, M_bind. destruct (m w) as [[a|e] w']; [|discriminate].
  intros H. exists a, w'. split; [reflexivity | exact H].
Qed.

Lemma datetime_now_run w :
  datetime_now w
  = (Ok (clock w (now_calls w)),
     set_now_calls (S (now_calls w)) (set_trace (trace w ++ [EvNow]) w)).
Proof. reflexivity. Qed.

(** After [mkdir], the directory and all above it are directories. *)
Lemma made_dirs f d a :
  List.find (fun a => is_file (f !! a)) (ancestors d) = None ->
  a ∈ ancestors d -> foldl make_dir f (ancestors d) !! a = Some Dir.
Proof.
  intros Hfind Ha. rewrite foldl_make_dir_lookup.
  rewrite bool_decide_eq_true_2 by exact Ha.
  pose proof (proj1 (find_none_forall _ _) Hfind a Ha) as Hfile. simpl in Hfile.
  destruct (f !! a) as [[c|]|]; [discriminate Hfile | reflexivity | reflexivity].
Qed.

Lemma made_dir_node f d :
  List.find (fun a => is_file (f !! a)) (ancestors d) = None ->
  node_at (foldl make_dir f (ancestors d)) d = Some Dir.
Proof.
  intros Hfind. unfold node_at. destruct (parts d) eqn:E; [reflexivity|].
  apply made_dirs; [exact Hfind|]. apply self_in_ancestors. congruence.
Qed.

Lemma made_dirs_child f d n :
  foldl make_dir f (ancestors d) !! {| root := root d; parts := parts d ++ [n] |}
  = f !! {| root := root d; parts := parts d ++ [n] |}.
Proof.
  rewrite foldl_make_dir_lookup.
  rewrite bool_decide_eq_false_2 by apply child_not_ancestor.
  destruct (f !! _); reflexivity.
Qed.

(** C7. [save_outputs] returns the two paths
    [output_dir/transcript_<ts>.txt] and
    [output_dir/analysis_report_<ts>.md]: both lie in [output_dir],
    both names hold the one timestamp [ts] of the single reading of
    the clock; a call that returns has read the clock once and leaves
    [output_dir] a directory; and the call does return, with the
    directory and those above it made where missing and kept where
    present, when no regular file stands in the place of a directory,
    neither target is a directory and both texts can be encoded. *)
Theorem save_outputs_paths (output_dir : Path) (transcript report : str) (w : World) :
  let ts := strftime (clock w (now_calls w)) in
  let transcript_path := joinpath output_dir (py "transcript_" ++ ts ++ py ".txt") in
  let report_path := joinpath output_dir (py "analysis_report_" ++ ts ++ py ".md") in
  (parent transcript_path = output_dir
   /\ name transcript_path = py "transcript_" ++ ts ++ py ".txt"
   /\ parent report_path = output_dir
   /\ name report_path = py "analysis_report_" ++ ts ++ py ".md")
  /\ (forall paths w',
        save_outputs output_dir transcript report w = (Ok paths, w') ->
        paths = (transcript_path, report_path)
        /\ now_calls w' = S (now_calls w)
        /\ node_at (fs w') output_dir = Some Dir)
  /\ (List.find (fun a => is_file (fs w !! a)) (ancestors output_dir) = None ->
      node_at (fs w) transcript_path <> Some Dir ->
      node_at (fs w) report_path <> Some Dir ->
      encodable transcript = true -> encodable report = true ->
      exists w',
        save_outputs output_dir transcript report w
          = (Ok (transcript_path, report_path), w')
        /\ fs w' !! transcript_path = Some (File (Text transcript))
        /\ fs w' !! report_path = Some (File (Text report))
        /\ (forall a, a ∈ ancestors output_dir -> fs w' !! a = Some Dir)).
Proof.
  intros ts transcript_path report_path.
  pose proof (strftime_no_slash (clock w (now_calls w))) as Hts. fold ts in Hts.
  pose proof (transcript_path_eq output_dir ts Hts) as E1. fold transcript_path in E1.
  pose proof (report_path_eq output_dir ts Hts) as E2. fold report_path in E2.
  assert (transcript_path <> report_path) as Hdiff.
  { rewrite E1, E2. intros E. injection E as E. apply app_inj_tail in E as [_ E].
    discriminate E. }
  split; [|split].
  - rewrite E1, E2, !parent_child, !name_child. repeat split.
  - intros paths w' Hrun. unfold save_outputs in Hrun.
    apply bind_inv in Hrun as (u & w1 & Hmk & Hrun).
    pose proof (mkdir_inv _ _ _ _ Hmk) as Hfind.
    rewrite (mkdir_run _ _ Hfind) in Hmk. injection Hmk as _ <-.
    rewrite (bind_run _ _ _ _ _ (datetime_now_run _)) in Hrun.
    cbn [clock now_calls set_fs set_trace] in Hrun. fold ts in Hrun.
    fold transcript_path report_path in Hrun.
    apply bind_inv in Hrun as (u1 & w2 & Hw1 & Hrun).
    pose proof (write_text_inv _ _ _ _ _ Hw1) as (Hp1 & Hd1 & He1).
    rewrite (write_text_run _ _ _ Hp1 Hd1 He1) in Hw1. injection Hw1 as _ <-.
    apply bind_inv in Hrun as (u2 & w3 & Hw2 & Hrun).
    pose proof (write_text_inv _ _ _ _ _ Hw2) as (Hp2 & Hd2 & He2).
    rewrite (write_text_run _ _ _ Hp2 Hd2 He2) in Hw2. injection Hw2 as _ <-.
    injection Hrun as <- <-. split; [reflexivity|]. split; [reflexivity|].
    cbn [fs set_fs set_trace set_now_calls] in *.
    rewrite node_at_insert_ne.
    + rewrite E2, parent_child in Hd2. exact Hd2.
    + rewrite E2. apply child_ne.
  - intros Hfind Hp1 Hp2 He1 He2. unfold save_outputs.
    rewrite E1, node_at_child in Hp1. rewrite E2, node_at_child in Hp2.
    rewrite (bind_run _ _ _ _ _ (mkdir_run _ _ Hfind)).
    rewrite (bind_run _ _ _ _ _ (datetime_now_run _)).
    cbn [clock now_calls set_fs set_trace]. fold ts. fold transcript_path report_path.
    erewrite bind_run; cycle 1.
    { apply write_text_run; cbn [fs set_fs set_trace set_now_calls].
      - rewrite E1, node_at_child, made_dirs_child. exact Hp1.
      - rewrite E1, parent_child. apply made_dir_node, Hfind.
      - exact He1. }
    erewrite bind_run; cycle 1.
    { apply write_text_run; cbn [fs set_fs set_trace set_now_calls].
      - rewrite node_at_insert_ne by exact Hdiff.
        rewrite E2, node_at_child, made_dirs_child. exact Hp2.
      - rewrite node_at_insert_ne by (rewrite E1, E2, parent_child; apply child_ne).
        rewrite E2, parent_child. apply made_dir_node, Hfind.
      - exact He2. }
    eexists. split; [reflexivity|]. cbn [fs set_fs set_trace set_now_calls].
    split; [|split].
    + rewrite lookup_insert_ne by congruence. apply lookup_insert_eq.
    + apply lookup_insert_eq.
    + intros a Ha.
      rewrite !lookup_insert_ne.
      * apply made_dirs; assumption.
      * rewrite E1. intros <-. exact (child_not_ancestor _ _ Ha).
      * rewrite E2. intros <-. exact (child_not_ancestor _ _ Ha).
Qed.

Lemma save_outputs_paths_witness :
  exists w',
    save_outputs (path_of_str (py "outputs/run1")) (py "hello") (py "report")
      (sample_world [] hello_response)
    = (Ok (path_of_str (py "outputs/run1/transcript_20240309_140500.txt"),
           path_of_str (py "outputs/run1/analysis_report_20240309_140500.md")), w').
Proof.
  destruct (proj2 (proj2 (save_outputs_paths (path_of_str (py "outputs/run1"))
                            (py "hello") (py "report") (sample_world [] hello_response))))
    as (w' & H & _).
  - vm_compute. reflexivity.
  - vm_compute. discriminate.
  - vm_compute. discriminate.
  - reflexivity.
  - reflexivity.
  - exists w'. exact H.
Defined.

(** * Further properties *)

(** ** The transcript line by line *)

Lemma segment_step_line lines segment :
  segment_step lines segment
  = if has_text segment then lines ++ [segment_line segment] else lines.
Proof.
  unfold segment_step, segment_line, has_text, divmod.
  destruct (str_bool _); reflexivity.
Qed.

Lemma fold_segment_lines segments : forall lines,
  fold_left segment_step segments lines
  = lines ++ map segment_line (List.filter has_text segments).
Proof.
  induction segments as [|s l IH]; intros lines; simpl.
  - rewrite app_nil_r. reflexivity.
  - rewrite IH, segment_step_line.
    destruct (has_text s); simpl; [rewrite <- app_assoc|]; reflexivity.
Qed.

Lemma segment_line_edges segment :
  has_text segment = true ->
  segment_line segment <> []
  /\ head_ok (segment_line segment) /\ last_ok (segment_line segment).
Proof.
  unfold has_text, segment_line, divmod. intros Ht.
  set (text := strip (default [] (seg_text segment))) in *.
  split; [discriminate|]. split; [reflexivity|].
  rewrite !app_assoc. apply last_ok_app.
  - destruct text; [discriminate Ht | discriminate].
  - apply strip_edges.
Qed.

Lemma segment_lines_strip segments :
  strip (join nl (map segment_line (List.filter has_text segments)))
  = join nl (map segment_line (List.filter has_text segments)).
Proof.
  assert (Forall (fun l => l <> [] /\ head_ok l /\ last_ok l)
            (map segment_line (List.filter has_text segments))) as H.
  { apply List.Forall_forall. intros l Hl.
    apply in_map_iff in Hl as (s & <- & Hs).
    apply filter_In in Hs as [_ Hs]. apply segment_line_edges, Hs. }
  apply join_edges in H as [H1 H2]. apply strip_id; assumption.
Qed.

Lemma transcript_of_segments segments flat :
  segments <> [] ->
  transcript_of_response {| resp_segments := Some segments; resp_text := flat |}
  = join nl (map segment_line (List.filter has_text segments)).
Proof.
  intros Hne. unfold transcript_of_response. simpl.
  destruct segments as [|s l]; [congruence|].
  rewrite fold_segment_lines. apply segment_lines_strip.
Qed.

(** X1. For every non-empty list of segments, whatever their start
    values, [transcribe_audio] returns the lines of the segments with
    text, in order and joined by line breaks, each stamped from
    [int(start)] (rounding toward zero); the transcript of two lists
    one after the other is the two transcripts' lines one after the
    other. *)
Theorem transcribe_audio_lines
    (client : Client) (audio_path : Path) (language : str) (w : World)
    (audio_file : Content) (segments : list Segment) (flat : option str) :
  node_at (fs w) audio_path = Some (File audio_file) ->
  speech_to_text w TRANSCRIBE_MODEL audio_file language
    = Ok {| resp_segments := Some segments; resp_text := flat |} ->
  segments <> [] ->
  fst (transcribe_audio client audio_path language w)
    = Ok (join nl (map segment_line (List.filter has_text segments)))
  /\ (forall before after,
        segments = before ++ after ->
        map segment_line (List.filter has_text segments)
        = map segment_line (List.filter has_text before)
          ++ map segment_line (List.filter has_text after)).
Proof.
  intros Hfile Hcall Hne. split.
  - rewrite (transcribe_audio_run _ _ _ _ _ _ Hfile Hcall). simpl.
    rewrite transcript_of_segments by exact Hne. reflexivity.
  - intros before after ->. rewrite List.filter_app, List.map_app. reflexivity.
Qed.

Lemma transcribe_audio_lines_witness :
  fst (transcribe_audio sample_client (path_of_str (py "meeting.mp3")) (py "ko")
         (sample_world []
            {| resp_segments :=
                 Some [{| seg_start := Some (-1 # 2)%Q; seg_text := Some (py "a") |};
                       {| seg_start := Some (6125 # 1)%Q; seg_text := Some (py " b ") |}];
               resp_text := None |}))
  = Ok (py "[00:00] 화자미상: a" ++ nl ++ py "[102:05] 화자미상: b").
Proof.
  destruct (transcribe_audio_lines sample_client (path_of_str (py "meeting.mp3"))
              (py "ko")
              (sample_world []
                 {| resp_segments :=
                      Some [{| seg_start := Some (-1 # 2)%Q; seg_text := Some (py "a") |};
                            {| seg_start := Some (6125 # 1)%Q; seg_text := Some (py " b ") |}];
                    resp_text := None |})
              (Binary [73; 68; 51]%N)
              [{| seg_start := Some (-1 # 2)%Q; seg_text := Some (py "a") |};
               {| seg_start := Some (6125 # 1)%Q; seg_text := Some (py " b ") |}] None)
    as [H _].
  - vm_compute. reflexivity.
  - reflexivity.
  - discriminate.
  - rewrite H. vm_compute. reflexivity.
Defined.

Lemma strip_strip s : strip (strip s) = strip s.
Proof. apply strip_id; apply strip_edges. Qed.

Lemma transcript_of_response_stripped response :
  strip (transcript_of_response response) = transcript_of_response response.
Proof.
  unfold transcript_of_response.
  destruct (resp_segments response) as [[|s l]|]; apply strip_strip.
Qed.

Lemma transcribe_audio_inv client audio_path language w transcript w' :
  transcribe_audio client audio_path language w = (Ok transcript, w') ->
  exists audio_file response,
    node_at (fs w) audio_path = Some (File audio_file)
    /\ speech_to_text w TRANSCRIBE_MODEL audio_file language = Ok response
    /\ transcript = transcript_of_response response.
Proof.
  unfold transcribe_audio, open_rb, transcriptions_create, mbind, M_bind, emit, lift.
  simpl. destruct (node_at (fs w) audio_path) as [[c|]|]; simpl; try discriminate.
  destruct (speech_to_text w TRANSCRIBE_MODEL c language) as [r|e] eqn:E; simpl;
    [|discriminate].
  intros H. injection H as <- _. exists c, r. repeat split. exact E.
Qed.

(** X2. Whatever the service answers, a transcript that
    [transcribe_audio] returns is stripped: stripping it again changes
    nothing, and it neither starts nor ends with white space. *)
Theorem transcript_is_stripped
    (client : Client) (audio_path : Path) (language : str) (w w' : World)
    (transcript : str) :
  transcribe_audio client audio_path language w = (Ok transcript, w') ->
  strip transcript = transcript /\ head_ok transcript /\ last_ok transcript.
Proof.
  intros H. apply transcribe_audio_inv in H as (c & r & _ & _ & ->).
  rewrite <- transcript_of_response_stripped.
  split; [apply strip_strip | apply strip_edges].
Qed.

Lemma transcript_is_stripped_witness :
  strip (py "안녕") = py "안녕".
Proof.
  apply (transcript_is_stripped sample_client (path_of_str (py "meeting.mp3")) (py "ko")
           (sample_world [] {| resp_segments := None; resp_text := Some (py "  안녕 ") |})
           (set_trace [EvOpen (path_of_str (py "meeting.mp3"));
                       EvTranscribe TRANSCRIBE_MODEL (py "ko")]
              (sample_world [] {| resp_segments := None; resp_text := Some (py "  안녕 ") |}))).
  vm_compute. reflexivity.
Defined.

Lemma format_02d_two_digits n :
  0 <= n < 100 ->
  exists a b, is_digit a = true /\ is_digit b = true /\ format_02d n = [a; b].
Proof.
  intros Hn.
  assert (forallb (fun k => match format_02d (Z.of_nat k) with
                            | [a; b] => is_digit a && is_digit b
                            | _ => false
                            end) (seq 0 100) = true) as Hall
    by (vm_compute; reflexivity).
  rewrite forallb_forall in Hall. specialize (Hall (Z.to_nat n)).
  rewrite Z2Nat.id in Hall by lia.
  assert (In (Z.to_nat n) (seq 0 100)) as Hin by (apply in_seq; lia).
  specialize (Hall Hin).
  destruct (format_02d n) as [|a [|b [|c l]]]; try discriminate Hall.
  apply andb_prop in Hall as [Ha Hb]. exists a, b. repeat split; assumption.
Qed.

Lemma str_int_length n : 10 <= n -> (2 <= length (str_int n))%nat.
Proof.
  intros Hn. unfold str_int. pose proof (DecimalZ.of_to n) as E.
  destruct (Z.to_int n) as [d|d].
  - destruct d as [|d|d|d|d|d|d|d|d|d|d];
      try (destruct d; [vm_compute in E; lia | simpl; lia ..]).
    vm_compute in E. lia.
  - unfold Z.of_int, Z.of_uint in E. pose proof (N2Z.is_nonneg (Pos.of_uint d)). lia.
Qed.

(** From two digits on, [02d] adds nothing. *)
Lemma format_02d_wide n : 10 <= n -> format_02d n = str_int n.
Proof.
  intros Hn. pose proof (str_int_length n Hn) as Hlen.
  unfold format_02d, format_0d.
  destruct (Z.ltb_spec n 0); [lia|].
  rewrite Z.abs_eq by lia. simpl length.
  replace (2 - 0 - length (str_int n))%nat with 0%nat by lia. reflexivity.
Qed.

(** X3. In the line of a segment the seconds are always two digits,
    and for a start from 0 up to 99 minutes 59 seconds the minutes are
    two digits too, so the stamp is the eight characters ["[mm:ss] "];
    from 100 minutes on the minutes are written in full. *)
Theorem timestamp_width (segment : Segment) :
  let start_sec := int (default (0 : Q) (seg_start segment)) in
  (exists c d,
      is_digit c = true /\ is_digit d = true
      /\ segment_line segment
         = py "[" ++ format_02d (start_sec / 60) ++ py ":" ++ [c; d]
           ++ py "] 화자미상: " ++ strip (default [] (seg_text segment)))
  /\ (0 <= start_sec < 6000 ->
      exists a b c d,
        is_digit a = true /\ is_digit b = true
        /\ is_digit c = true /\ is_digit d = true
        /\ segment_line segment
           = [91; a; b; 58; c; d; 93; 32]%N ++ py "화자미상: "
             ++ strip (default [] (seg_text segment)))
  /\ (6000 <= start_sec ->
      segment_line segment
      = py "[" ++ str_int (start_sec / 60) ++ py ":" ++ format_02d (start_sec mod 60)
        ++ py "] 화자미상: " ++ strip (default [] (seg_text segment))).
Proof.
  intros start_sec.
  destruct (format_02d_two_digits (start_sec mod 60)) as (c & d & Hc & Hd & Hss).
  { pose proof (Z.mod_pos_bound start_sec 60). lia. }
  split; [|split].
  - exists c, d. split; [exact Hc|]. split; [exact Hd|].
    unfold segment_line, divmod. fold start_sec. rewrite Hss. reflexivity.
  - intros Hrange.
    destruct (format_02d_two_digits (start_sec / 60)) as (a & b & Ha & Hb & Hmm).
    { split; [apply Z.div_pos; lia | apply Z.div_lt_upper_bound; lia]. }
    exists a, b, c, d. repeat (split; [assumption|]).
    unfold segment_line, divmod. fold start_sec. rewrite Hss, Hmm. reflexivity.
  - intros Hbig. unfold segment_line, divmod. fold start_sec.
    assert (100 <= start_sec / 60) as Hmm by (apply Z.div_le_lower_bound; lia).
    rewrite (format_02d_wide (start_sec / 60)) by lia. reflexivity.
Qed.

Lemma timestamp_width_witness :
  segment_line {| seg_start := Some (3599 # 1)%Q; seg_text := Some (py "x") |}
  = py "[59:59] 화자미상: x"
  /\ segment_line {| seg_start := Some (6000 # 1)%Q; seg_text := Some (py "x") |}
     = py "[100:00] 화자미상: x".
Proof.
  split.
  - destruct (proj1 (proj2 (timestamp_width
                              {| seg_start := Some (3599 # 1)%Q; seg_text := Some (py "x") |})))
      as (a & b & c & d & _ & _ & _ & _ & H).
    + vm_compute. split; [discriminate | reflexivity].
    + reflexivity.
  - rewrite (proj2 (proj2 (timestamp_width
                             {| seg_start := Some (6000 # 1)%Q; seg_text := Some (py "x") |}))).
    + reflexivity.
    + vm_compute. discriminate.
Defined.


Lemma filter_has_text_none segments :
  Forall (fun s => has_text s = false) segments -> List.filter has_text segments = [].
Proof.
  induction 1 as [|s l Hs _ IH]; simpl; [reflexivity|]. rewrite Hs. exact IH.
Qed.

(** X4. When the response has segments but none of them has text,
    the transcript is empty: the flat text of the response is not
    used, whatever it holds. *)
Theorem textless_segments_give_empty
    (client : Client) (audio_path : Path) (language : str) (w : World)
    (audio_file : Content) (segments : list Segment) (flat : option str) :
  node_at (fs w) audio_path = Some (File audio_file) ->
  speech_to_text w TRANSCRIBE_MODEL audio_file language
    = Ok {| resp_segments := Some segments; resp_text := flat |} ->
  segments <> [] ->
  Forall (fun s => has_text s = false) segments ->
  fst (transcribe_audio client audio_path language w) = Ok [].
Proof.
  intros Hfile Hcall Hne Hblank.
  rewrite (transcribe_audio_run _ _ _ _ _ _ Hfile Hcall). simpl.
  rewrite transcript_of_segments by exact Hne.
  rewrite filter_has_text_none by exact Hblank. reflexivity.
Qed.

Lemma textless_segments_give_empty_witness :
  fst (transcribe_audio sample_client (path_of_str (py "meeting.mp3")) (py "ko")
         (sample_world [] blank_response))
  = Ok [].
Proof.
  apply (textless_segments_give_empty sample_client (path_of_str (py "meeting.mp3"))
           (py "ko") (sample_world [] blank_response) (Binary [73; 68; 51]%N)
           [{| seg_start := Some (3 # 2)%Q; seg_text := Some (py "  ") |}]
           (Some (py "flat text"))).
  - vm_compute. reflexivity.
  - reflexivity.
  - discriminate.
  - repeat constructor.
Defined.

(** X5. [transcribe_audio] calls the service only when the audio file
    opens, and once: a missing file or a directory raises before any
    call, and an error of the service comes back as it is after the
    one call. *)
Theorem transcribe_audio_errors
    (client : Client) (audio_path : Path) (language : str) (w : World) :
  (node_at (fs w) audio_path = None ->
   transcribe_audio client audio_path language w
   = (Raise (FileNotFoundError (path_str audio_path)),
      set_trace (trace w ++ [EvOpen audio_path]) w))
  /\ (node_at (fs w) audio_path = Some Dir ->
      transcribe_audio client audio_path language w
      = (Raise (IsADirectoryError audio_path),
         set_trace (trace w ++ [EvOpen audio_path]) w))
  /\ (forall audio_file e,
        node_at (fs w) audio_path = Some (File audio_file) ->
        speech_to_text w TRANSCRIBE_MODEL audio_file language = Raise e ->
        transcribe_audio client audio_path language w
        = (Raise e,
           set_trace (trace w ++ [EvOpen audio_path;
                                  EvTranscribe TRANSCRIBE_MODEL language]) w)).
Proof.
  unfold transcribe_audio, open_rb, transcriptions_create, mbind, M_bind, emit, lift.
  simpl. split; [|split].
  - intros ->. reflexivity.
  - intros ->. reflexivity.
  - intros audio_file e -> Hcall. simpl. rewrite Hcall. simpl.
    unfold set_trace. simpl. rewrite <- app_assoc. reflexivity.
Qed.

Lemma transcribe_audio_errors_witness :
  trace (snd (transcribe_audio sample_client (path_of_str (py "missing.mp3")) (py "ko")
                (sample_world [] hello_response)))
  = [EvOpen (path_of_str (py "missing.mp3"))].
Proof.
  rewrite (proj1 (transcribe_audio_errors sample_client (path_of_str (py "missing.mp3"))
                    (py "ko") (sample_world [] hello_response))).
  - reflexivity.
  - vm_compute. reflexivity.
Defined.

(** ** The prompt, whatever the arguments *)

Lemma join_last (l : list str) b :
  last l = Some b -> removelast l <> [] ->
  join nl l = join nl (removelast l) ++ nl ++ b.
Proof.
  intros Hl Hne. destruct l as [|x l] using rev_ind; [discriminate Hl|].
  rewrite last_snoc in Hl. injection Hl as ->.
  rewrite removelast_last in *. apply join_snoc, Hne.
Qed.

(** X6. Whatever the nine arguments hold, blank or empty ones
    included, the prompt starts with the title line and ends with the
    last guideline, and is itself stripped: the final [strip()] takes
    the two framing line breaks and nothing of an argument. *)
Theorem prompt_frame
    (transcript report_type company_name language_output detail_level : str)
    (privacy_anonymize confidence_labeling : bool)
    (pre_briefing_context : str) (quantitative_data : json) :
  let prompt :=
    build_analysis_prompt transcript report_type company_name language_output
      detail_level privacy_anonymize confidence_labeling pre_briefing_context
      quantitative_data in
  (exists middle,
      prompt = py "## 📌 Universal Interview / Meeting Analysis Prompt" ++ nl
               ++ middle ++ nl ++ py "- 발언 인용은 타임스탬프를 포함해 제시")
  /\ strip prompt = prompt
  /\ prompt <> [].
Proof.
  intros prompt. subst prompt. split; [|split].
  - rewrite build_analysis_prompt_eq. unfold prompt_lines.
    rewrite join_cons.
    erewrite (join_last _ (py "- 발언 인용은 타임스탬프를 포함해 제시"));
      [|reflexivity|discriminate].
    eexists. reflexivity.
  - unfold build_analysis_prompt. apply strip_strip.
  - rewrite build_analysis_prompt_eq. unfold prompt_lines.
    apply join_nonempty. discriminate.
Qed.

(** X7. The five text arguments stand in the prompt as they are
    given, nothing escaped or trimmed: the transcript on the lines
    between [<<<] and [>>>], the company, language and detail level
    each between double quotes on its line, and the pre-briefing
    context between double quotes before the data heading. *)
Theorem prompt_embeds_arguments
    (transcript report_type company_name language_output detail_level : str)
    (privacy_anonymize confidence_labeling : bool)
    (pre_briefing_context : str) (quantitative_data : json) :
  let prompt :=
    build_analysis_prompt transcript report_type company_name language_output
      detail_level privacy_anonymize confidence_labeling pre_briefing_context
      quantitative_data in
  contains (join nl [py "INPUT_TRANSCRIPT_START"; py "<<<"; transcript; py ">>>";
                     py "INPUT_TRANSCRIPT_END"]) prompt
  /\ contains (join nl [py "### 1. PARAMETERS";
                        py "- Company_Name: " ++ dquote ++ company_name ++ dquote;
                        py "- Language_Output: " ++ dquote ++ language_output ++ dquote;
                        py "- Output_Detail_Level: " ++ dquote ++ detail_level ++ dquote])
       prompt
  /\ contains (join nl [py "- Pre_briefing_Context: " ++ dquote ++ pre_briefing_context
                          ++ dquote;
                        py "- Quantitative_Data:"]) prompt.
Proof.
  intros prompt. subst prompt. rewrite build_analysis_prompt_eq.
  split; [|split].
  - apply (contains_join_lines (prompt_lines _ _ _ _ _ _ _ _ _) 13 5).
  - apply (contains_join_lines (prompt_lines _ _ _ _ _ _ _ _ _) 2 4).
  - apply (contains_join_lines (prompt_lines _ _ _ _ _ _ _ _ _) 8 2).
Qed.

(** ** Saving, step by step *)

(** What a returning [save_outputs] has found and left. *)
Lemma save_outputs_inv output_dir transcript report w paths w' :
  save_outputs output_dir transcript report w = (Ok paths, w') ->
  let ts := strftime (clock w (now_calls w)) in
  let transcript_path :=
    {| root := root output_dir;
       parts := parts output_dir ++ [py "transcript_" ++ ts ++ py ".txt"] |} in
  let report_path :=
    {| root := root output_dir;
       parts := parts output_dir ++ [py "analysis_report_" ++ ts ++ py ".md"] |} in
  paths = (transcript_path, report_path)
  /\ List.find (fun a => is_file (fs w !! a)) (ancestors output_dir) = None
  /\ fs w !! transcript_path <> Some Dir /\ fs w !! report_path <> Some Dir
  /\ encodable transcript = true /\ encodable report = true
  /\ fs w' = <[report_path := File (Text report)]>
               (<[transcript_path := File (Text transcript)]>
                  (foldl make_dir (fs w) (ancestors output_dir)))
  /\ trace w' = trace w ++ [EvMkdir output_dir; EvNow;
                            EvWriteText transcript_path transcript;
                            EvWriteText report_path report]
  /\ now_calls w' = S (now_calls w) /\ clock w' = clock w.
Proof.
  intros Hrun ts transcript_path report_path.
  pose proof (strftime_no_slash (clock w (now_calls w))) as Hts. fold ts in Hts.
  pose proof (transcript_path_eq output_dir ts Hts) as E1. fold transcript_path in E1.
  pose proof (report_path_eq output_dir ts Hts) as E2. fold report_path in E2.
  assert (transcript_path <> report_path) as Hdiff.
  { unfold transcript_path, report_path. intros E. injection E as E.
    apply app_inj_tail in E as [_ E]. discriminate E. }
  unfold save_outputs in Hrun.
  apply bind_inv in Hrun as (u & w1 & Hmk & Hrun).
  pose proof (mkdir_inv _ _ _ _ Hmk) as Hfind.
  rewrite (mkdir_run _ _ Hfind) in Hmk. injection Hmk as _ <-.
  rewrite (bind_run _ _ _ _ _ (datetime_now_run _)) in Hrun.
  cbn [clock now_calls set_fs set_trace] in Hrun. fold ts in Hrun.
  rewrite E1, E2 in Hrun.
  apply bind_inv in Hrun as (u1 & w2 & Hw1 & Hrun).
  pose proof (write_text_inv _ _ _ _ _ Hw1) as (Hp1 & Hd1 & He1).
  rewrite (write_text_run _ _ _ Hp1 Hd1 He1) in Hw1. injection Hw1 as _ <-.
  apply bind_inv in Hrun as (u2 & w3 & Hw2 & Hrun).
  pose proof (write_text_inv _ _ _ _ _ Hw2) as (Hp2 & Hd2 & He2).
  rewrite (write_text_run _ _ _ Hp2 Hd2 He2) in Hw2. injection Hw2 as _ <-.
  injection Hrun as <- <-.
  cbn [fs trace now_calls clock set_fs set_trace set_now_calls] in *.
  unfold transcript_path in Hp1. rewrite node_at_child, made_dirs_child in Hp1.
  rewrite node_at_insert_ne in Hp2 by exact Hdiff.
  unfold report_path in Hp2. rewrite node_at_child, made_dirs_child in Hp2.
  repeat (split; [first [reflexivity | assumption]|]).
  split; [|split; reflexivity]. rewrite <- !app_assoc. reflexivity.
Qed.

(** When the file system lets it, [save_outputs] returns. *)
Lemma save_outputs_ok output_dir transcript report w :
  let ts := strftime (clock w (now_calls w)) in
  let transcript_path :=
    {| root := root output_dir;
       parts := parts output_dir ++ [py "transcript_" ++ ts ++ py ".txt"] |} in
  let report_path :=
    {| root := root output_dir;
       parts := parts output_dir ++ [py "analysis_report_" ++ ts ++ py ".md"] |} in
  List.find (fun a => is_file (fs w !! a)) (ancestors output_dir) = None ->
  fs w !! transcript_path <> Some Dir -> fs w !! report_path <> Some Dir ->
  encodable transcript = true -> encodable report = true ->
  exists w',
    save_outputs output_dir transcript report w
    = (Ok (transcript_path, report_path), w').
Proof.
  intros ts transcript_path report_path Hfind Hp1 Hp2 He1 He2.
  pose proof (strftime_no_slash (clock w (now_calls w))) as Hts. fold ts in Hts.
  pose proof (transcript_path_eq output_dir ts Hts) as E1. fold transcript_path in E1.
  pose proof (report_path_eq output_dir ts Hts) as E2. fold report_path in E2.
  assert (transcript_path <> report_path) as Hdiff.
  { unfold transcript_path, report_path. intros E. injection E as E.
    apply app_inj_tail in E as [_ E]. discriminate E. }
  unfold save_outputs.
  rewrite (bind_run _ _ _ _ _ (mkdir_run _ _ Hfind)).
  rewrite (bind_run _ _ _ _ _ (datetime_now_run _)).
  cbn [clock now_calls set_fs set_trace]. fold ts. rewrite E1, E2.
  erewrite bind_run; cycle 1.
  { apply write_text_run; cbn [fs set_fs set_trace set_now_calls].
    - unfold transcript_path. rewrite node_at_child, made_dirs_child. exact Hp1.
    - unfold transcript_path. rewrite parent_child. apply made_dir_node, Hfind.
    - exact He1. }
  erewrite bind_run; cycle 1.
  { apply write_text_run; cbn [fs set_fs set_trace set_now_calls].
    - rewrite node_at_insert_ne by exact Hdiff.
      unfold report_path. rewrite node_at_child, made_dirs_child. exact Hp2.
    - rewrite node_at_insert_ne
        by (unfold transcript_path, report_path; rewrite parent_child; apply child_ne).
      unfold report_path. rewrite parent_child. apply made_dir_node, Hfind.
    - exact He2. }
  eexists. reflexivity.
Qed.

Lemma make_dirs_other l : forall f q, q ∉ l -> foldl make_dir f l !! q = f !! q.
Proof.
  intros f q Hq. rewrite foldl_make_dir_lookup.
  rewrite bool_decide_eq_false_2 by exact Hq. destruct (f !! q); reflexivity.
Qed.



Lemma bind_raise {A B} (m : M A) (k : A -> M B) w e w' :
  m w = (Raise e, w') -> (m ≫= k) w = (Raise e, w').
Proof. intros H. unfold mbind, M_bind. rewrite H. reflexivity. Qed.



(** X10. The two files are written one after the other, so a failure
    at the report leaves the transcript behind.  If the transcript can
    be written but the report cannot (its path is a directory, or the
    report holds a surrogate, which UTF-8 cannot encode), the call
    raises, the transcript file holds the transcript, and in the
    second case the report file has been made and is empty. *)
Theorem save_outputs_partial
    (output_dir : Path) (transcript report : str) (w : World) :
  let ts := strftime (clock w (now_calls w)) in
  let transcript_path :=
    {| root := root output_dir;
       parts := parts output_dir ++ [py "transcript_" ++ ts ++ py ".txt"] |} in
  let report_path :=
    {| root := root output_dir;
       parts := parts output_dir ++ [py "analysis_report_" ++ ts ++ py ".md"] |} in
  List.find (fun a => is_file (fs w !! a)) (ancestors output_dir) = None ->
  fs w !! transcript_path <> Some Dir ->
  encodable transcript = true ->
  fs w !! report_path = Some Dir \/ encodable report = false ->
  exists e w',
    save_outputs output_dir transcript report w = (Raise e, w')
    /\ e = match fs w !! report_path with
           | Some Dir => IsADirectoryError report_path
           | _ => UnicodeEncodeError
           end
    /\ fs w' !! transcript_path = Some (File (Text transcript))
    /\ (fs w !! report_path <> Some Dir ->
        fs w' !! report_path = Some (File (Text []))).
Proof.
  intros ts transcript_path report_path Hfind Hp1 He1 Hbad.
  pose proof (strftime_no_slash (clock w (now_calls w))) as Hts. fold ts in Hts.
  pose proof (transcript_path_eq output_dir ts Hts) as E1. fold transcript_path in E1.
  pose proof (report_path_eq output_dir ts Hts) as E2. fold report_path in E2.
  assert (transcript_path <> report_path) as Hdiff.
  { unfold transcript_path, report_path. intros E. injection E as E.
    apply app_inj_tail in E as [_ E]. discriminate E. }
  unfold save_outputs.
  rewrite (bind_run _ _ _ _ _ (mkdir_run _ _ Hfind)).
  rewrite (bind_run _ _ _ _ _ (datetime_now_run _)).
  cbn [clock now_calls set_fs set_trace]. fold ts. rewrite E1, E2.
  erewrite bind_run; cycle 1.
  { apply write_text_run; cbn [fs set_fs set_trace set_now_calls].
    - unfold transcript_path. rewrite node_at_child, made_dirs_child. exact Hp1.
    - unfold transcript_path. rewrite parent_child. apply made_dir_node, Hfind.
    - exact He1. }
  assert (forall f, node_at (<[transcript_path := File (Text transcript)]>
                              (foldl make_dir f (ancestors output_dir))) report_path
                    = f !! report_path) as Hnode.
  { intros f. rewrite node_at_insert_ne by exact Hdiff.
    unfold report_path. rewrite node_at_child, made_dirs_child. reflexivity. }
  assert (node_at (<[transcript_path := File (Text transcript)]>
                     (foldl make_dir (fs w) (ancestors output_dir))) (parent report_path)
          = Some Dir) as Hparent.
  { rewrite node_at_insert_ne
      by (unfold transcript_path, report_path; rewrite parent_child; apply child_ne).
    unfold report_path. rewrite parent_child. apply made_dir_node, Hfind. }
  unfold write_text at 1, mbind at 1 2, M_bind at 1 2, emit, act.
  cbn [fs trace set_fs set_trace set_now_calls].
  rewrite Hnode, Hparent.
  destruct (fs w !! report_path) as [[c|]|] eqn:Hnode'.
  - destruct Hbad as [Hbad|Hbad]; [discriminate Hbad|]. rewrite Hbad.
    eexists _, _. split; [reflexivity|]. split; [reflexivity|].
    cbn [fs set_fs set_trace set_now_calls]. split.
    + rewrite lookup_insert_ne by (intros E; symmetry in E; contradiction).
      apply lookup_insert_eq.
    + intros _. apply lookup_insert_eq.
  - eexists _, _. split; [reflexivity|]. split; [reflexivity|].
    cbn [fs set_fs set_trace set_now_calls]. split.
    + apply lookup_insert_eq.
    + intros H. contradiction.
  - destruct Hbad as [Hbad|Hbad]; [discriminate Hbad|]. rewrite Hbad.
    eexists _, _. split; [reflexivity|]. split; [reflexivity|].
    cbn [fs set_fs set_trace set_now_calls]. split.
    + rewrite lookup_insert_ne by (intros E; symmetry in E; contradiction).
      apply lookup_insert_eq.
    + intros _. apply lookup_insert_eq.
Qed.

Lemma save_outputs_partial_witness :
  exists w',
    save_outputs (path_of_str (py "outputs/run1")) (py "hello") [55296%N]
      (sample_world [] hello_response) = (Raise UnicodeEncodeError, w')
    /\ fs w' !! path_of_str (py "outputs/run1/transcript_20240309_140500.txt")
       = Some (File (Text (py "hello")))
    /\ fs w' !! path_of_str (py "outputs/run1/analysis_report_20240309_140500.md")
       = Some (File (Text [])).
Proof.
  destruct (save_outputs_partial (path_of_str (py "outputs/run1")) (py "hello")
              [55296%N] (sample_world [] hello_response))
    as (e & w' & Hrun & -> & Ht & Hr).
  - vm_compute. reflexivity.
  - vm_compute. discriminate.
  - reflexivity.
  - right. reflexivity.
  - exists w'. split; [|split].
    + rewrite Hrun. vm_compute. reflexivity.
    + exact Ht.
    + apply Hr. vm_compute. discriminate.
Defined.

(** X11. The file names carry the time to the second and nothing
    else, so a second call within the same second, to the same
    directory, returns the same two paths and replaces what the first
    call wrote. *)
Theorem save_outputs_same_second
    (output_dir : Path) (t1 r1 t2 r2 : str) (w w1 : World) (paths : Path * Path) :
  save_outputs output_dir t1 r1 w = (Ok paths, w1) ->
  strftime (clock w (S (now_calls w))) = strftime (clock w (now_calls w)) ->
  encodable t2 = true -> encodable r2 = true ->
  exists w2,
    save_outputs output_dir t2 r2 w1 = (Ok paths, w2)
    /\ fs w2 !! fst paths = Some (File (Text t2))
    /\ fs w2 !! snd paths = Some (File (Text r2)).
Proof.
  intros Hrun Hts He1 He2.
  apply save_outputs_inv in Hrun
    as (-> & Hfind & _ & _ & _ & _ & Hfs & _ & Hnow & Hclock).
  assert ({| root := root output_dir;
             parts := parts output_dir
                      ++ [py "transcript_" ++ strftime (clock w (now_calls w)) ++ py ".txt"] |}
          <> {| root := root output_dir;
                parts := parts output_dir
                         ++ [py "analysis_report_" ++ strftime (clock w (now_calls w))
                             ++ py ".md"] |}) as Hdiff.
  { intros E. injection E as E. apply app_inj_tail in E as [_ E]. discriminate E. }
  destruct (save_outputs_ok output_dir t2 r2 w1) as (w2 & Hrun2).
  - apply find_none_forall. intros a Ha. rewrite Hfs.
    rewrite !lookup_insert_ne
      by (intros <-; exact (child_not_ancestor _ _ Ha)).
    rewrite (made_dirs _ _ _ Hfind Ha). reflexivity.
  - rewrite Hclock, Hnow, Hts, Hfs.
    rewrite lookup_insert_ne by (intros E; symmetry in E; contradiction).
    rewrite lookup_insert_eq. discriminate.
  - rewrite Hclock, Hnow, Hts, Hfs. rewrite lookup_insert_eq. discriminate.
  - exact He1.
  - exact He2.
  - rewrite Hclock, Hnow, Hts in Hrun2. exists w2. split; [exact Hrun2|].
    apply save_outputs_inv in Hrun2 as (_ & _ & _ & _ & _ & _ & Hfs2 & _).
    rewrite Hclock, Hnow, Hts in Hfs2. simpl fst. simpl snd. rewrite Hfs2. split.
    + rewrite lookup_insert_ne by (intros E; symmetry in E; contradiction).
      apply lookup_insert_eq.
    + apply lookup_insert_eq.
Qed.

Lemma save_outputs_same_second_witness :
  exists w1 w2 paths,
    save_outputs (path_of_str (py "outputs")) (py "first") (py "one") still_world
    = (Ok paths, w1)
    /\ save_outputs (path_of_str (py "outputs")) (py "second") (py "two") w1
       = (Ok paths, w2)
    /\ fs w2 !! fst paths = Some (File (Text (py "second"))).
Proof.
  destruct (save_outputs_ok (path_of_str (py "outputs")) (py "first") (py "one")
              still_world) as (w1 & Hrun).
  - vm_compute. reflexivity.
  - vm_compute. discriminate.
  - vm_compute. discriminate.
  - reflexivity.
  - reflexivity.
  - destruct (save_outputs_same_second _ _ _ (py "second") (py "two") _ _ _ Hrun)
      as (w2 & Hrun2 & Ht & _).
    + reflexivity.
    + reflexivity.
    + reflexivity.
    + eexists w1, w2, _. split; [exact Hrun|]. split; [exact Hrun2 | exact Ht].
Defined.

(** X12. When the clock has moved to another second between two
    calls that return, the second call writes under other names and
    the files of the first call are still there, unchanged. *)
Theorem save_outputs_next_second
    (output_dir : Path) (t1 r1 t2 r2 : str) (w w1 w2 : World)
    (paths1 paths2 : Path * Path) :
  save_outputs output_dir t1 r1 w = (Ok paths1, w1) ->
  save_outputs output_dir t2 r2 w1 = (Ok paths2, w2) ->
  strftime (clock w (S (now_calls w))) <> strftime (clock w (now_calls w)) ->
  fst paths2 <> fst paths1 /\ snd paths2 <> snd paths1
  /\ fs w2 !! fst paths1 = Some (File (Text t1))
  /\ fs w2 !! snd paths1 = Some (File (Text r1)).
Proof.
  intros Hrun1 Hrun2 Hts.
  apply save_outputs_inv in Hrun1
    as (-> & Hfind & _ & _ & _ & _ & Hfs1 & _ & Hnow & Hclock).
  apply save_outputs_inv in Hrun2 as (-> & _ & _ & _ & _ & _ & Hfs2 & _).
  rewrite Hclock, Hnow in Hfs2 |- *. simpl fst. simpl snd.
  set (ts := strftime (clock w (now_calls w))) in *.
  set (ts' := strftime (clock w (S (now_calls w)))) in *.
  assert (forall n n' : str, n' <> n ->
            {| root := root output_dir; parts := parts output_dir ++ [n'] |}
            <> {| root := root output_dir; parts := parts output_dir ++ [n] |}) as Hchild.
  { intros n n' Hn E. injection E as E. apply app_inj_tail in E as [_ E].
    contradiction. }
  assert (py "transcript_" ++ ts' ++ py ".txt" <> py "transcript_" ++ ts ++ py ".txt") as N11.
  { intros E. apply app_inv_head, app_inv_tail in E. contradiction. }
  assert (py "analysis_report_" ++ ts' ++ py ".md"
          <> py "analysis_report_" ++ ts ++ py ".md") as N22.
  { intros E. apply app_inv_head, app_inv_tail in E. contradiction. }
  assert (py "analysis_report_" ++ ts' ++ py ".md"
          <> py "transcript_" ++ ts ++ py ".txt") as N21 by discriminate.
  assert (py "transcript_" ++ ts' ++ py ".txt"
          <> py "analysis_report_" ++ ts ++ py ".md") as N12 by discriminate.
  assert (py "analysis_report_" ++ ts ++ py ".md"
          <> py "transcript_" ++ ts ++ py ".txt") as N0 by discriminate.
  split; [apply Hchild, N11|]. split; [apply Hchild, N22|].
  rewrite Hfs2. split.
  - rewrite !lookup_insert_ne by (apply Hchild; assumption).
    rewrite made_dirs_child, Hfs1.
    rewrite lookup_insert_ne by (apply Hchild; assumption).
    apply lookup_insert_eq.
  - rewrite !lookup_insert_ne by (apply Hchild; assumption).
    rewrite made_dirs_child, Hfs1. apply lookup_insert_eq.
Qed.

Lemma save_outputs_next_second_witness :
  exists w1 w2 paths1 paths2,
    save_outputs (path_of_str (py "outputs")) (py "first") (py "one")
      (sample_world [] hello_response) = (Ok paths1, w1)
    /\ save_outputs (path_of_str (py "outputs")) (py "second") (py "two") w1
       = (Ok paths2, w2)
    /\ fs w2 !! fst paths1 = Some (File (Text (py "first"))).
Proof.
  destruct (save_outputs_ok (path_of_str (py "outputs")) (py "first") (py "one")
              (sample_world [] hello_response)) as (w1 & Hrun1).
  - vm_compute. reflexivity.
  - vm_compute. discriminate.
  - vm_compute. discriminate.
  - reflexivity.
  - reflexivity.
  - pose proof (save_outputs_inv _ _ _ _ _ _ Hrun1)
      as (_ & Hfind & _ & _ & _ & _ & Hfs1 & _ & Hnow & Hclock).
    destruct (save_outputs_ok (path_of_str (py "outputs")) (py "second") (py "two") w1)
      as (w2 & Hrun2).
    + apply find_none_forall. intros a Ha. rewrite Hfs1.
      rewrite !lookup_insert_ne
        by (intros <-; exact (child_not_ancestor _ _ Ha)).
      rewrite (made_dirs _ _ _ Hfind Ha). reflexivity.
    + rewrite Hclock, Hnow, Hfs1. vm_compute. discriminate.
    + rewrite Hclock, Hnow, Hfs1. vm_compute. discriminate.
    + reflexivity.
    + reflexivity.
    + eexists w1, w2, _, _. split; [exact Hrun1|]. split; [exact Hrun2|].
      destruct (save_outputs_next_second _ _ _ _ _ _ _ _ _ _ Hrun1 Hrun2)
        as (_ & _ & Ht & _).
      * vm_compute. discriminate.
      * exact Ht.
Defined.

(** ** The command line, word by word *)

Lemma str_eqb_eq a b : str_eqb a b = true -> a = b.
Proof. unfold str_eqb. apply bool_decide_eq_true. Qed.

Lemma exact_option_in arg d : exact_option arg = Some d -> (arg, d) ∈ option_strings.
Proof.
  unfold exact_option. destruct (List.find _ _) as [[o d']|] eqn:E; [|discriminate].
  simpl. intros [= <-]. apply find_some in E as [Hin Heq].
  simpl in Heq. apply str_eqb_eq in Heq as <-. apply list_elem_of_In. exact Hin.
Qed.

Lemma option_strings_plain :
  forallb (fun kv => str_eqb (before_equals (fst kv)) (fst kv)) option_strings = true.
Proof. vm_compute. reflexivity. Qed.

Lemma before_equals_option o d : (o, d) ∈ option_strings -> before_equals o = o.
Proof.
  intros H. apply list_elem_of_In in H.
  pose proof (proj1 (forallb_forall _ _) option_strings_plain _ H) as E.
  apply str_eqb_eq in E. exact E.
Qed.

Lemma starts_with_refl s : starts_with s s = true.
Proof.
  unfold starts_with, str_eqb. rewrite firstn_all. apply bool_decide_eq_true. reflexivity.
Qed.

Lemma split_equals_before arg a b : split_equals arg = Some (a, b) -> before_equals arg = a.
Proof. unfold before_equals. intros ->. reflexivity. Qed.

Lemma names_intro d word o :
  (2 <= length word)%nat -> head word = Some 45%N ->
  (o, d) ∈ option_strings -> starts_with (before_equals word) o = true ->
  names d word = true.
Proof.
  intros Hlen Hhead Hin Hstart. unfold names.
  destruct word as [|c0 [|c1 rest]]; simpl in Hlen; try lia.
  simpl in Hhead. injection Hhead as ->.
  apply existsb_exists. exists (o, d). split; [apply list_elem_of_In, Hin|].
  simpl. rewrite Hstart. rewrite bool_decide_eq_true_2 by reflexivity. reflexivity.
Qed.

Lemma option_strings_long o d : (o, d) ∈ option_strings -> (2 <= length o)%nat.
Proof.
  intros H. apply list_elem_of_In in H.
  assert (forallb (fun kv => (2 <=? length (fst kv))%nat) option_strings = true) as E
    by (vm_compute; reflexivity).
  pose proof (proj1 (forallb_forall _ _) E _ H) as E'.
  exact (proj1 (Nat.leb_le 2 (length o)) E').
Qed.

(** The entries [option_tuples] returns are declared options; one
    without a value given in the word is an option the word begins. *)
Lemma option_tuples_in arg o d e :
  (o, d, e) ∈ option_tuples arg ->
  (o, d) ∈ option_strings
  /\ (d <> DHelp -> starts_with (before_equals arg) o = true).
Proof.
  unfold option_tuples.
  destruct arg as [|c0 [|c1 rest]];
    [intros H; apply not_elem_of_nil in H; destruct H
    |intros H; apply not_elem_of_nil in H; destruct H|].
  destruct ((c0 =? 45) && (c1 =? 45))%N eqn:Edash.
  - unfold before_equals.
    destruct (split_equals (c0 :: c1 :: rest)) as [[a b]|]; intros H;
      apply list_elem_of_omap in H as ([o' d'] & Hin & Hf); simpl in Hf;
      destruct (starts_with _ o') eqn:Es; try discriminate Hf;
      injection Hf as <- <- <-; (split; [exact Hin | intros _; exact Es]).
  - destruct (c0 =? 45)%N eqn:E0; [|intros H; apply not_elem_of_nil in H; destruct H].
    intros H. apply list_elem_of_omap in H as ([o' d'] & Hin & Hf). simpl in Hf.
    destruct (str_eqb o' [c0; c1]) eqn:Eshort.
    + injection Hf as <- <- <-. split; [exact Hin|]. intros Hd. exfalso.
      apply str_eqb_eq in Eshort. subst o'.
      apply N.eqb_eq in E0. subst c0. simpl in Edash.
      assert (forallb (fun kv : str * Dest =>
                         match fst kv, snd kv with
                         | [_; c], DHelp => true
                         | [_; c], _ => false
                         | _, _ => true
                         end) option_strings = true) as Hall
        by (vm_compute; reflexivity).
      apply list_elem_of_In in Hin.
      pose proof (proj1 (forallb_forall _ _) Hall _ Hin) as Hone. simpl in Hone.
      destruct d'; first [contradiction | discriminate Hone].
    + destruct (starts_with _ o') eqn:Es; [|discriminate Hf].
      injection Hf as <- <- <-. exfalso.
      apply N.eqb_eq in E0. subst c0. simpl in Edash.
      unfold starts_with in Es. apply str_eqb_eq in Es.
      assert (forallb (fun kv : str * Dest =>
                         match fst kv with
                         | [_; _] => true
                         | _ :: c :: _ => (c =? 45)%N
                         | _ => true
                         end) option_strings = true) as Hall
        by (vm_compute; reflexivity).
      apply list_elem_of_In in Hin.
      pose proof (proj1 (forallb_forall _ _) Hall _ Hin) as Hone. simpl in Hone.
      destruct o' as [|a [|b [|c o']]]; simpl in Es; try discriminate Es.
      * injection Es as -> <- Hrest. unfold str_eqb in Eshort.
        rewrite bool_decide_eq_false in Eshort. apply Eshort. reflexivity.
      * injection Es as _ <- _. rewrite Hone in Edash. discriminate Edash.
Qed.

(** A word read as an option is read as a declared one, and unless
    that is the help option, the word names it. *)
Lemma classify_option neg arg o d e :
  classify neg arg = COption o d e ->
  (o, d) ∈ option_strings /\ (d <> DHelp -> names d arg = true).
Proof.
  unfold classify. destruct arg as [|c0 rest0] eqn:Earg; [discriminate|].
  rewrite <- Earg.
  destruct (negb (c0 =? 45)%N) eqn:E0; [discriminate|].
  apply negb_false_iff, N.eqb_eq in E0.
  assert (head arg = Some 45%N) as Hhead by (rewrite Earg, E0; reflexivity).
  destruct (exact_option arg) as [d0|] eqn:Eexact.
  { intros [= <- <- <-]. apply exact_option_in in Eexact.
    split; [exact Eexact|]. intros _.
    apply (names_intro d0 arg arg); [apply (option_strings_long _ _ Eexact) | exact Hhead
                                    | exact Eexact|].
    rewrite (before_equals_option _ _ Eexact). apply starts_with_refl. }
  destruct (length arg =? 1)%nat eqn:Elen; [discriminate|].
  apply Nat.eqb_neq in Elen.
  assert (2 <= length arg)%nat as Hlen by (rewrite Earg in Elen |- *; simpl in *; lia).
  destruct (split_equals arg) as [[a b]|] eqn:Esplit.
  - destruct (exact_option a) as [d0|] eqn:Ea.
    + intros [= <- <- <-]. apply exact_option_in in Ea. split; [exact Ea|]. intros _.
      apply (names_intro d0 arg a); [exact Hlen | exact Hhead | exact Ea|].
      rewrite (split_equals_before _ _ _ Esplit). apply starts_with_refl.
    + destruct (option_tuples arg) as [|[[o1 d1] e1] [|t2 l]] eqn:Et; try discriminate.
      * destruct (neg arg); [discriminate|]. destruct (bool_decide _); discriminate.
      * intros [= <- <- <-].
        destruct (option_tuples_in arg o1 d1 e1) as [Hin Hstart].
        { rewrite Et. apply list_elem_of_here. }
        split; [exact Hin|]. intros Hd.
        apply (names_intro d1 arg o1); [exact Hlen | exact Hhead | exact Hin|].
        apply Hstart, Hd.
  - destruct (option_tuples arg) as [|[[o1 d1] e1] [|t2 l]] eqn:Et; try discriminate.
    + destruct (neg arg); [discriminate|]. destruct (bool_decide _); discriminate.
    + intros [= <- <- <-].
      destruct (option_tuples_in arg o1 d1 e1) as [Hin Hstart].
      { rewrite Et. apply list_elem_of_here. }
      split; [exact Hin|]. intros Hd.
      apply (names_intro d1 arg o1); [exact Hlen | exact Hhead | exact Hin|].
      apply Hstart, Hd.
Qed.

Lemma finish_inv st ns :
  finish st = Ok ns -> ns = st_ns st /\ st_audio st = true /\ st_pending st = None.
Proof.
  unfold finish. destruct (st_pending st); [discriminate|].
  destruct (st_audio st); simpl; [|discriminate].
  destruct (st_extras st); [discriminate|]. intros [= <-]. repeat split.
Qed.

Lemma store_value_inv d v st st' :
  store_value d v st = Ok st' ->
  st_ns st' = store d v (st_ns st) /\ st_audio st' = st_audio st
  /\ st_pending st' = None
  /\ (forall cs, choices d = Some cs -> v ∈ cs).
Proof.
  unfold store_value. destruct (choices d) as [cs|].
  - destruct (bool_decide (v ∈ cs)) eqn:E; [|discriminate]. intros [= <-].
    apply bool_decide_eq_true in E. repeat split. intros cs' [= <-]. exact E.
  - intros [= <-]. repeat split. intros cs' H. discriminate H.
Qed.

(** What one word can do to the parser: nothing to the namespace,
    fill the positional, leave an option waiting, or store a value
    for an option the word names or that was waiting. *)
Lemma step_inv neg st arg st' :
  step neg st arg = Ok st' ->
  (st_ns st' = st_ns st /\ st_audio st' = st_audio st
   /\ (st_pending st' = st_pending st
       \/ st_pending st' = None
       \/ exists o d, st_pending st' = Some d /\ classify neg arg = COption o d None
                      /\ st_pending st = None))
  \/ (st_ns st' = store_audio arg (st_ns st) /\ st_audio st = false
      /\ st_audio st' = true /\ st_pending st' = st_pending st)
  \/ (exists d v, store_value d v st = Ok st'
                  /\ (st_pending st = Some d /\ v = arg
                      \/ st_pending st = None /\ exists o e, classify neg arg = COption o d e)).
Proof.
  unfold step. destruct (st_pending st) as [d|] eqn:Ep.
  - destruct (str_eqb arg (py "--")); [discriminate|].
    destruct (classify neg arg); try discriminate.
    intros H. right. right. exists d, arg. split; [exact H|]. left. split; reflexivity.
  - destruct (st_dashdash st).
    { intros [= <-]. unfold positional. destruct (st_audio st) eqn:Ea; simpl.
      - left. rewrite Ep. repeat split. left. reflexivity.
      - right. left. rewrite Ep. repeat split. }
    destruct (str_eqb arg (py "--")).
    { intros [= <-]. left. simpl. rewrite Ep. repeat split. left. reflexivity. }
    destruct (classify neg arg) as [|o d [e|]| |] eqn:Ec; try discriminate.
    + intros [= <-]. unfold positional. destruct (st_audio st) eqn:Ea; simpl.
      * left. rewrite Ep. repeat split. left. reflexivity.
      * right. left. rewrite Ep. repeat split.
    + destruct d; simpl; try discriminate; intros H; right; right;
        eexists _, e; (split; [exact H|]); right; (split; [reflexivity|]);
        eexists _, _; reflexivity.
    + destruct d; simpl; try discriminate;
        try (intros [= <-]; left; simpl; repeat split; right; right;
             eexists _, _; repeat split; reflexivity);
        intros H; right; right; eexists _, []; (split; [exact H|]); right;
        (split; [reflexivity|]); eexists _, _; reflexivity.
    + intros [= <-]. left. simpl. repeat split. right. left. reflexivity.
Qed.

Lemma parse_words_audio neg words : forall st ns,
  parse_words neg st words = Ok ns ->
  (st_audio st = true /\ audio ns = audio (st_ns st))
  \/ (exists word, word ∈ words /\ audio ns = path_of_str word).
Proof.
  induction words as [|arg rest IH]; intros st ns Hparse; simpl in Hparse.
  - apply finish_inv in Hparse as (-> & Ha & _). left. split; [exact Ha | reflexivity].
  - destruct (step neg st arg) as [st'|e] eqn:Hstep; [|discriminate Hparse].
    destruct (IH _ _ Hparse) as [[Ha Hns] | (word & Hin & Hns)].
    + apply step_inv in Hstep
        as [(Hsame & Haudio & _) | [(Hset & Hno & _) | (d & v & Hstore & _)]].
      * left. rewrite <- Haudio, Hns, Hsame. split; [exact Ha | reflexivity].
      * right. exists arg. split; [apply list_elem_of_here|].
        rewrite Hns, Hset. reflexivity.
      * apply store_value_inv in Hstore as (Hsame & Haudio & _).
        left. rewrite <- Haudio, Hns, Hsame. split; [exact Ha|]. destruct d; reflexivity.
    + right. exists word. split; [apply list_elem_of_further, Hin | exact Hns].
Qed.

(** X13. The audio path of a command line that parses is one of its
    words, read as a path: the positional has no default and nothing
    else fills it.  So a command line that parses is not empty. *)
Theorem parse_args_audio_from_argv (negative_number_like : str -> bool)
    (w : World) (args : Namespace) :
  fst (parse_args negative_number_like w) = Ok args ->
  (exists word, word ∈ argv w /\ audio args = path_of_str word)
  /\ argv w <> [].
Proof.
  unfold parse_args, lift. simpl. intros Hparse.
  apply parse_words_audio in Hparse as [[Ha _] | (word & Hin & Hns)];
    [discriminate Ha|].
  split; [exists word; split; assumption|].
  intros E. rewrite E in Hin. apply not_elem_of_nil in Hin. exact Hin.
Qed.

Lemma parse_args_audio_from_argv_witness :
  exists word,
    word ∈ [py "--company"; py "Acme"; py "talk.wav"]
    /\ path_of_str (py "talk.wav") = path_of_str word.
Proof.
  destruct (parse_args_audio_from_argv (fun _ => false)
              (sample_world [py "--company"; py "Acme"; py "talk.wav"] hello_response)
              (store_audio (py "talk.wav") (store DCompany (py "Acme") defaults)))
    as [H _].
  - vm_compute. reflexivity.
  - exact H.
Defined.

Lemma parse_words_detail_level neg words : forall st args,
  parse_words neg st words = Ok args ->
  detail_level (st_ns st) ∈ [py "Summary"; py "Exhaustive"] ->
  detail_level args ∈ [py "Summary"; py "Exhaustive"].
Proof.
  induction words as [|arg rest IH]; intros st args Hparse Hinv; simpl in Hparse.
  - apply finish_inv in Hparse as (-> & _). exact Hinv.
  - destruct (step neg st arg) as [st'|e] eqn:Hstep; [|discriminate Hparse].
    apply (IH _ _ Hparse).
    apply step_inv in Hstep
      as [(Hsame & _) | [(Hset & _) | (d & v & Hstore & _)]].
    + rewrite Hsame. exact Hinv.
    + rewrite Hset. exact Hinv.
    + apply store_value_inv in Hstore as (Hsame & _ & _ & Hchoice). rewrite Hsame.
      destruct d; try exact Hinv. simpl. apply Hchoice. reflexivity.
Qed.



Lemma store_same_at d d' v ns ns0 :
  d' <> d -> same_at d ns ns0 -> same_at d (store d' v ns) ns0.
Proof. destruct d, d'; simpl; intros Hne H; first [exact H | contradiction]. Qed.

Lemma store_audio_same_at d v ns ns0 :
  same_at d ns ns0 -> same_at d (store_audio v ns) ns0.
Proof. destruct d; simpl; intros H; exact H. Qed.

Lemma parse_words_same_at neg d ns0 words : forall st ns,
  d <> DHelp ->
  parse_words neg st words = Ok ns ->
  (forall word, word ∈ words -> names d word = false) ->
  same_at d (st_ns st) ns0 -> st_pending st <> Some d ->
  same_at d ns ns0.
Proof.
  induction words as [|arg rest IH]; intros st ns Hd Hparse Hnames Hinv Hpend;
    simpl in Hparse.
  - apply finish_inv in Hparse as (-> & _). exact Hinv.
  - destruct (step neg st arg) as [st'|e] eqn:Hstep; [|discriminate Hparse].
    assert (names d arg = false) as Harg by apply Hnames, list_elem_of_here.
    assert (forall o e, classify neg arg <> COption o d e) as Hclass.
    { intros o e Hc. apply classify_option in Hc as [_ Hc].
      rewrite (Hc Hd) in Harg. discriminate Harg. }
    apply (IH st' ns Hd Hparse).
    + intros word Hin. apply Hnames, list_elem_of_further, Hin.
    + apply step_inv in Hstep
        as [(Hsame & _) | [(Hset & _) | (d' & v & Hstore & Hwhy)]].
      * rewrite Hsame. exact Hinv.
      * rewrite Hset. apply store_audio_same_at, Hinv.
      * apply store_value_inv in Hstore as (Hsame & _). rewrite Hsame.
        apply store_same_at; [|exact Hinv].
        destruct Hwhy as [[Hp _] | (_ & o & e' & Hc)].
        -- intros ->. contradiction.
        -- intros ->. exact (Hclass _ _ Hc).
    + apply step_inv in Hstep
        as [(_ & _ & [Hp | [Hp | (o & d' & Hp & Hc & _)]]) | [(_ & _ & _ & Hp)
           | (d' & v & Hstore & _)]].
      * rewrite Hp. exact Hpend.
      * rewrite Hp. discriminate.
      * rewrite Hp. intros [= ->]. exact (Hclass _ _ Hc).
      * rewrite Hp. exact Hpend.
      * apply store_value_inv in Hstore as (_ & _ & Hp & _). rewrite Hp. discriminate.
Qed.

(** X15. An option that no word of the command line names keeps its
    default: the arguments [parse_args] returns agree with the
    defaults on what that option sets.  To name an option a word must
    begin with a dash and, up to its equals sign, begin one of the
    option's strings; the values of other options and the audio path
    never set it. *)
Theorem parse_args_default_kept (negative_number_like : str -> bool)
    (w : World) (args : Namespace) (d : Dest) :
  fst (parse_args negative_number_like w) = Ok args ->
  (forall word, word ∈ argv w -> names d word = false) ->
  same_at d args defaults.
Proof.
  unfold parse_args, lift. simpl. intros Hparse Hnames.
  destruct (decide (d = DHelp)) as [->|Hd]; [exact I|].
  apply (parse_words_same_at negative_number_like d defaults (argv w)
           initial_state args Hd Hparse Hnames).
  - destruct d; reflexivity.
  - discriminate.
Qed.

Lemma parse_args_default_kept_witness :
  language (store DCompany (py "no-anonymize") (store_audio (py "meeting.mp3") defaults))
  = py "ko"
  /\ no_anonymize (store DCompany (py "no-anonymize")
                     (store_audio (py "meeting.mp3") defaults))
     = false.
Proof.
  split.
  - apply (parse_args_default_kept (fun _ => false)
             (sample_world [py "meeting.mp3"; py "--company"; py "no-anonymize"]
                hello_response)
             _ DLanguage).
    + vm_compute. reflexivity.
    + intros word Hin. simpl in Hin.
      repeat (apply elem_of_cons in Hin as [-> | Hin]; [vm_compute; reflexivity|]).
      apply not_elem_of_nil in Hin. destruct Hin.
  - apply (parse_args_default_kept (fun _ => false)
             (sample_world [py "meeting.mp3"; py "--company"; py "no-anonymize"]
                hello_response)
             _ DNoAnonymize).
    + vm_compute. reflexivity.
    + intros word Hin. simpl in Hin.
      repeat (apply elem_of_cons in Hin as [-> | Hin]; [vm_compute; reflexivity|]).
      apply not_elem_of_nil in Hin. destruct Hin.
Defined.

Lemma step_raise neg st arg e :
  step neg st arg = Raise e ->
  e = SystemExit 2
  \/ (e = SystemExit 0 /\ exists o x, classify neg arg = COption o DHelp x).
Proof.
  assert (forall d v, store_value d v st = Raise e -> e = SystemExit 2) as Hstore.
  { intros d v. unfold store_value. destruct (choices d); [|discriminate].
    destruct (bool_decide _); [discriminate|]. intros [= <-]. reflexivity. }
  unfold step. destruct (st_pending st) as [d|].
  - destruct (str_eqb arg (py "--")); [intros [= <-]; left; reflexivity|].
    destruct (classify neg arg); try (intros [= <-]; left; reflexivity).
    intros H. left. exact (Hstore _ _ H).
  - destruct (st_dashdash st); [discriminate|].
    destruct (str_eqb arg (py "--")); [discriminate|].
    destruct (classify neg arg) as [|o d [x|]| |] eqn:Ec; try discriminate.
    + destruct d; simpl; try (intros [= <-]; left; reflexivity);
        try (intros H; left; exact (Hstore _ _ H)).
      destruct (_ && _); intros [= <-]; [right | left; reflexivity].
      split; [reflexivity|]. eexists _, _. reflexivity.
    + destruct d; simpl; try discriminate;
        try (intros H; left; exact (Hstore _ _ H)).
      intros [= <-]. right. split; [reflexivity|]. eexists _, _. reflexivity.
    + intros [= <-]. left. reflexivity.
Qed.

Lemma parse_words_raise neg words : forall st e,
  parse_words neg st words = Raise e ->
  e = SystemExit 2
  \/ (e = SystemExit 0
      /\ exists word o x, word ∈ words /\ classify neg word = COption o DHelp x).
Proof.
  induction words as [|arg rest IH]; intros st e Hparse; simpl in Hparse.
  - unfold finish in Hparse. destruct (st_pending st); [injection Hparse as <-; left; reflexivity|].
    destruct (_ || _); [|discriminate Hparse]. injection Hparse as <-. left. reflexivity.
  - destruct (step neg st arg) as [st'|e'] eqn:Hstep.
    + apply IH in Hparse as [H | (H & word & o & x & Hin & Hc)]; [left; exact H|].
      right. split; [exact H|]. exists word, o, x.
      split; [apply list_elem_of_further, Hin | exact Hc].
    + injection Hparse as ->.
      apply step_raise in Hstep as [H | (H & o & x & Hc)]; [left; exact H|].
      right. split; [exact H|]. exists arg, o, x. split; [apply list_elem_of_here | exact Hc].
Qed.



(** ** The events of a run *)

Lemma emits_only_ret {A} P (a : A) w : emits_only P (mret a : M A) w.
Proof. split; [reflexivity|]. exists []. split; [symmetry; apply app_nil_r | constructor]. Qed.

Lemma emits_only_raise {A} P e w : emits_only P (raise e : M A) w.
Proof. split; [reflexivity|]. exists []. split; [symmetry; apply app_nil_r | constructor]. Qed.

Lemma emits_only_lift {A} P (f : World -> Outcome A) w : emits_only P (lift f) w.
Proof. split; [reflexivity|]. exists []. split; [symmetry; apply app_nil_r | constructor]. Qed.

Lemma emits_only_act {A} P (f : World -> Outcome A * World) w :
  (forall w0, argv (snd (f w0)) = argv w0 /\ trace (snd (f w0)) = trace w0) ->
  emits_only P (act f) w.
Proof.
  intros H. destruct (H w) as [Ha Ht]. split; [exact Ha|].
  exists []. unfold act. rewrite Ht. split; [symmetry; apply app_nil_r | constructor].
Qed.

Lemma emits_only_emit (P : Event -> Prop) ev w : P ev -> emits_only P (emit ev) w.
Proof.
  intros H. split; [reflexivity|]. exists [ev]. split; [reflexivity|].
  constructor; [exact H | constructor].
Qed.

Lemma emits_only_bind {A B} P (m : M A) (k : A -> M B) w :
  emits_only P m w ->
  (forall a w', m w = (Ok a, w') -> argv w' = argv w -> emits_only P (k a) w') ->
  emits_only P (m ≫= k) w.
Proof.
  intros [Ha (new & Ht & Hnew)] Hk. unfold emits_only, mbind, M_bind in *.
  destruct (m w) as [[a|e] w'] eqn:E; simpl in *.
  - destruct (Hk a w' eq_refl Ha) as [Ha' (new' & Ht' & Hnew')]. split; [congruence|].
    exists (new ++ new'). rewrite Ht', Ht, app_assoc. split; [reflexivity|].
    apply Forall_app. split; assumption.
  - split; [exact Ha|]. exists new. split; assumption.
Qed.

Lemma emits_only_weaken {A} (P Q : Event -> Prop) (m : M A) w :
  (forall ev, P ev -> Q ev) -> emits_only P m w -> emits_only Q m w.
Proof.
  intros HPQ [Ha (new & Ht & Hnew)]. split; [exact Ha|]. exists new.
  split; [exact Ht|]. eapply Forall_impl; eassumption.
Qed.

Lemma load_dotenv_emits (P : Event -> Prop) w :
  P EvLoadDotenv -> emits_only P load_dotenv w.
Proof.
  intros H. unfold load_dotenv.
  apply emits_only_bind; [apply emits_only_emit, H | intros ? ? _ _].
  apply emits_only_act. intros w0. split; reflexivity.
Qed.

Lemma path_exists_emits (P : Event -> Prop) p w :
  P (EvExists p) -> emits_only P (path_exists p) w.
Proof.
  intros H. unfold path_exists.
  apply emits_only_bind; [apply emits_only_emit, H | intros ? ? _ _].
  apply emits_only_lift.
Qed.

Lemma read_text_emits (P : Event -> Prop) p w :
  P (EvReadText p) -> emits_only P (read_text p) w.
Proof.
  intros H. unfold read_text.
  apply emits_only_bind; [apply emits_only_emit, H | intros ? ? _ _].
  apply emits_only_lift.
Qed.

Lemma mkdir_emits (P : Event -> Prop) p w : P (EvMkdir p) -> emits_only P (mkdir p) w.
Proof.
  intros H. unfold mkdir.
  apply emits_only_bind; [apply emits_only_emit, H | intros ? ? _ _].
  apply emits_only_act. intros w0. destruct (List.find _ _); split; reflexivity.
Qed.

Lemma write_text_emits (P : Event -> Prop) p data w :
  P (EvWriteText p data) -> emits_only P (write_text p data) w.
Proof.
  intros H. unfold write_text.
  apply emits_only_bind; [apply emits_only_emit, H | intros ? ? _ _].
  apply emits_only_act. intros w0.
  destruct (node_at (fs w0) p) as [[c|]|], (node_at (fs w0) (parent p)) as [[c'|]|],
    (encodable data); split; reflexivity.
Qed.

Lemma datetime_now_emits (P : Event -> Prop) w : P EvNow -> emits_only P datetime_now w.
Proof.
  intros H. unfold datetime_now.
  apply emits_only_bind; [apply emits_only_emit, H | intros ? ? _ _].
  apply emits_only_act. intros w0. split; reflexivity.
Qed.

Lemma OpenAI_emits (P : Event -> Prop) w : P EvNewClient -> emits_only P OpenAI w.
Proof.
  intros H. unfold OpenAI.
  apply emits_only_bind; [apply emits_only_emit, H | intros ? ? _ _].
  apply emits_only_lift.
Qed.

Lemma transcribe_audio_emits (P : Event -> Prop) client audio_path language w :
  P (EvOpen audio_path) -> P (EvTranscribe TRANSCRIBE_MODEL language) ->
  emits_only P (transcribe_audio client audio_path language) w.
Proof.
  intros Ho Ht. unfold transcribe_audio, open_rb, transcriptions_create.
  apply emits_only_bind.
  { apply emits_only_bind; [apply emits_only_emit, Ho | intros ? ? _ _].
    apply emits_only_lift. }
  intros audio_file w1 _ _. apply emits_only_bind; [|intros; apply emits_only_ret].
  apply emits_only_bind; [apply emits_only_emit, Ht | intros ? ? _ _].
  apply emits_only_lift.
Qed.

Lemma build_analysis_report_emits (P : Event -> Prop) client prompt w :
  P (EvGenerate ANALYSIS_MODEL prompt) ->
  emits_only P (build_analysis_report client prompt) w.
Proof.
  intros H. unfold build_analysis_report, responses_create.
  apply emits_only_bind; [|intros; apply emits_only_ret].
  apply emits_only_bind; [apply emits_only_emit, H | intros ? ? _ _].
  apply emits_only_lift.
Qed.

Lemma load_quantitative_data_emits (P : Event -> Prop) json_loads path w :
  (forall p, path = Some p -> P (EvReadText p)) ->
  emits_only P (load_quantitative_data json_loads path) w.
Proof.
  intros H. unfold load_quantitative_data. destruct path as [p|]; [|apply emits_only_ret].
  apply emits_only_bind; [apply read_text_emits, H; reflexivity|].
  intros text w' _ _. destruct (json_loads text); [apply emits_only_ret | apply emits_only_raise].
Qed.

Lemma save_outputs_emits (P : Event -> Prop) output_dir transcript report w :
  P (EvMkdir output_dir) -> P EvNow ->
  (forall ts data,
      P (EvWriteText {| root := root output_dir;
                        parts := parts output_dir ++ [py "transcript_" ++ ts ++ py ".txt"] |}
           data)) ->
  (forall ts data,
      P (EvWriteText {| root := root output_dir;
                        parts := parts output_dir
                                 ++ [py "analysis_report_" ++ ts ++ py ".md"] |}
           data)) ->
  emits_only P (save_outputs output_dir transcript report) w.
Proof.
  intros Hm Hn Ht Hr. unfold save_outputs.
  apply emits_only_bind; [apply mkdir_emits, Hm | intros ? w1 _ _].
  apply emits_only_bind; [apply datetime_now_emits, Hn | intros now w2 _ _].
  rewrite (transcript_path_eq _ _ (strftime_no_slash now)).
  rewrite (report_path_eq _ _ (strftime_no_slash now)).
  apply emits_only_bind; [apply write_text_emits, Ht | intros ? w3 _ _].
  apply emits_only_bind; [apply write_text_emits, Hr | intros ? w4 _ _].
  apply emits_only_ret.
Qed.

Lemma main_emits json_loads negative_number_like w args :
  parse_words negative_number_like initial_state (argv w) = Ok args ->
  emits_only (allowed args) (main json_loads negative_number_like) w.
Proof.
  intros Hparse. unfold main.
  apply emits_only_bind; [apply load_dotenv_emits; exact I|]. intros _ w1 _ Hargv.
  apply emits_only_bind; [unfold parse_args; apply emits_only_lift|].
  intros args' w2 Hparse' _. unfold parse_args, lift in Hparse'.
  injection Hparse' as Hparse' _. rewrite Hargv, Hparse in Hparse'.
  injection Hparse' as <-.
  apply emits_only_bind; [apply path_exists_emits; reflexivity|]. intros found w3 _ _.
  destruct found; simpl; [|apply emits_only_raise].
  apply emits_only_bind.
  { apply load_quantitative_data_emits. intros p Hp. exact Hp. }
  intros q w4 _ _.
  apply emits_only_bind; [apply OpenAI_emits; exact I|]. intros client w5 _ _.
  apply emits_only_bind; [apply emits_only_emit; exact I|]. intros _ w6 _ _.
  apply emits_only_bind.
  { apply transcribe_audio_emits; [reflexivity | split; reflexivity]. }
  intros transcript w7 _ _.
  apply emits_only_bind; [apply emits_only_emit; exact I|]. intros _ w8 _ _.
  apply emits_only_bind.
  { apply build_analysis_report_emits. split; [reflexivity|].
    exists transcript, q. reflexivity. }
  intros report w9 _ _.
  apply emits_only_bind; [apply emits_only_emit; exact I|]. intros _ w10 _ _.
  apply emits_only_bind.
  { apply save_outputs_emits; [reflexivity | exact I | |].
    - intros ts data. split; [apply parent_child|]. exists ts. left. apply name_child.
    - intros ts data. split; [apply parent_child|]. exists ts. right. apply name_child. }
  intros paths w11 _ _.
  apply emits_only_bind; [apply emits_only_emit; exact I|]. intros _ w12 _ _.
  apply emits_only_bind; [apply emits_only_emit; exact I|]. intros _ w13 _ _.
  apply emits_only_emit. exact I.
Qed.


(** ** A run, stage by stage *)

Lemma emit_run ev w : emit ev w = (Ok tt, set_trace (trace w ++ [ev]) w).
Proof. reflexivity. Qed.

Lemma load_dotenv_run w :
  load_dotenv w
  = (Ok tt, set_environ (environ w ∪ dotenv w) (set_trace (trace w ++ [EvLoadDotenv]) w)).
Proof. reflexivity. Qed.

Lemma parse_args_run neg w o :
  parse_words neg initial_state (argv w) = o -> parse_args neg w = (o, w).
Proof. intros <-. reflexivity. Qed.

Lemma path_exists_run p w n :
  node_at (fs w) p = Some n ->
  path_exists p w = (Ok true, set_trace (trace w ++ [EvExists p]) w).
Proof.
  intros H. unfold path_exists, mbind, M_bind, emit, lift. simpl. rewrite H.
  rewrite bool_decide_eq_true_2 by (eexists; reflexivity). reflexivity.
Qed.

Lemma OpenAI_run w :
  OpenAI w
  = (match environ w !! py "OPENAI_API_KEY" with
     | Some k => Ok (OpenAIClient k)
     | None => Raise OpenAIError
     end, set_trace (trace w ++ [EvNewClient]) w).
Proof. reflexivity. Qed.

Lemma build_analysis_report_run client prompt w :
  build_analysis_report client prompt w
  = (match text_generation w ANALYSIS_MODEL prompt with
     | Ok output_text => Ok (strip output_text)
     | Raise e => Raise e
     end, set_trace (trace w ++ [EvGenerate ANALYSIS_MODEL prompt]) w).
Proof.
  unfold build_analysis_report, responses_create, mbind, M_bind, emit, lift. simpl.
  destruct (text_generation w ANALYSIS_MODEL prompt); reflexivity.
Qed.

(** Loading the quantitative data looks at the files only, and adds
    to the record the one read, if a path was given. *)
Lemma load_quantitative_data_run json_loads path w :
  exists w',
    load_quantitative_data json_loads path w
    = (match path with
       | None => Ok JNull
       | Some p =>
         match node_at (fs w) p with
         | None => Raise (FileNotFoundError (path_str p))
         | Some Dir => Raise (IsADirectoryError p)
         | Some (File (Binary _)) => Raise UnicodeDecodeError
         | Some (File (Text s)) =>
           match json_loads s with Some v => Ok v | None => Raise JSONDecodeError end
         end
       end, w')
    /\ fs w' = fs w /\ environ w' = environ w /\ clock w' = clock w
    /\ now_calls w' = now_calls w /\ speech_to_text w' = speech_to_text w
    /\ text_generation w' = text_generation w
    /\ trace w' = trace w ++ match path with Some p => [EvReadText p] | None => [] end.
Proof.
  destruct path as [p|].
  - exists (set_trace (trace w ++ [EvReadText p]) w). split; [|repeat split].
    unfold load_quantitative_data, read_text, mbind, M_bind, emit, lift. simpl.
    destruct (node_at (fs w) p) as [[[s|b]|]|]; try reflexivity.
    destruct (json_loads s); reflexivity.
  - exists w. split; [reflexivity|]. repeat split. symmetry. apply app_nil_r.
Qed.



(** The first steps of [main] when the command line parses and the
    audio path exists: up to the loading of the quantitative data. *)
Ltac main_prelude Hparse Haudio :=
  unfold main;
  rewrite (bind_run _ _ _ _ _ (load_dotenv_run _));
  erewrite bind_run; [|apply parse_args_run; exact Hparse];
  erewrite bind_run; [|eapply path_exists_run; exact Haudio];
  cbn [negb];
  match goal with
  | |- context [(load_quantitative_data ?j ?p ≫= ?k) ?W] =>
    destruct (load_quantitative_data_run j p W)
      as (w3 & Hload & Hfs3 & Henv3 & Hclock3 & Hnow3 & Hstt3 & Hgen3 & Htrace3);
    cbn [fs environ clock now_calls speech_to_text text_generation trace
         set_trace set_environ set_fs set_now_calls] in Hfs3, Henv3, Hclock3,
      Hnow3, Hstt3, Hgen3, Htrace3
  end.

(** X19. When the file given by [--quant-data] cannot be loaded
    (it is missing, a directory, not text, or not JSON), [main] raises
    at that point: the audio file has not been opened, no client has
    been made, no service has been called, and the files are as they
    were. *)
Theorem main_bad_quantitative_data (json_loads : str -> option json)
    (negative_number_like : str -> bool) (w : World) (args : Namespace)
    (n : Node) (p : Path) (e : Exception) :
  parse_words negative_number_like initial_state (argv w) = Ok args ->
  node_at (fs w) (audio args) = Some n ->
  quant_data args = Some p ->
  fst (load_quantitative_data json_loads (Some p) w) = Raise e ->
  fst (main json_loads negative_number_like w) = Raise e
  /\ trace (snd (main json_loads negative_number_like w))
     = trace w ++ [EvLoadDotenv; EvExists (audio args); EvReadText p]
  /\ fs (snd (main json_loads negative_number_like w)) = fs w
  /\ (e = FileNotFoundError (path_str p) \/ e = IsADirectoryError p
      \/ e = UnicodeDecodeError \/ e = JSONDecodeError).
Proof.
  intros Hparse Haudio Hq Hfail.
  destruct (load_quantitative_data_run json_loads (Some p) w) as (w0 & Hload0 & _).
  rewrite Hload0 in Hfail. simpl in Hfail.
  main_prelude Hparse Haudio. rewrite Hq in Hload, Htrace3.
  cbn [fs set_trace set_environ] in Hload.
  rewrite Hfail in Hload. rewrite Hq, (bind_raise _ _ _ _ _ Hload). simpl.
  rewrite Htrace3, Hfs3, <- !app_assoc. repeat split.
  destruct (node_at (fs w) p) as [[[s|b]|]|].
  - destruct (json_loads s); [discriminate Hfail|]. injection Hfail as <-. auto.
  - injection Hfail as <-. auto.
  - injection Hfail as <-. auto.
  - injection Hfail as <-. auto.
Qed.

Lemma main_bad_quantitative_data_witness :
  fst (main (fun _ => None) (fun _ => false)
         (sample_world [py "meeting.mp3"; py "--quant-data"; py "q.json"] hello_response))
  = Raise (FileNotFoundError (py "q.json")).
Proof.
  apply (main_bad_quantitative_data (fun _ => None) (fun _ => false)
           (sample_world [py "meeting.mp3"; py "--quant-data"; py "q.json"] hello_response)
           (store DQuantData (py "q.json") (store_audio (py "meeting.mp3") defaults))
           (File (Binary [73; 68; 51]%N)) (path_of_str (py "q.json"))).
  - vm_compute. reflexivity.
  - vm_compute. reflexivity.
  - reflexivity.
  - vm_compute. reflexivity.
Defined.



(** The steps of [main] after the prelude, up to the transcript. *)
Ltac main_transcript Hload Hfs Henv Hstt3 Hq Hkey Haudio Hstt :=
  cbn [fs set_trace set_environ] in Hload; rewrite Hq in Hload;
  rewrite (bind_run _ _ _ _ _ Hload);
  erewrite bind_run;
    [|rewrite OpenAI_run, Henv, Hkey; reflexivity];
  unfold print; rewrite (bind_run _ _ _ _ _ (emit_run _ _));
  erewrite bind_run;
    [|eapply transcribe_audio_run;
      [cbn [fs set_trace]; rewrite Hfs; exact Haudio
      |cbn [speech_to_text set_trace]; rewrite Hstt3; exact Hstt]];
  rewrite (bind_run _ _ _ _ _ (emit_run _ _)).

(** X21. When the generation service fails, [main] raises what the
    service raised and nothing has been saved: the transcript, though
    made, is written nowhere, the output directory is not made, and
    the files are as they were.  The request to the service is the
    last event. *)
Theorem main_generation_failure (json_loads : str -> option json)
    (negative_number_like : str -> bool) (w : World) (args : Namespace)
    (audio_file : Content) (q : json) (key : str) (response : Response)
    (e : Exception) :
  parse_words negative_number_like initial_state (argv w) = Ok args ->
  node_at (fs w) (audio args) = Some (File audio_file) ->
  fst (load_quantitative_data json_loads (quant_data args) w) = Ok q ->
  (environ w ∪ dotenv w) !! py "OPENAI_API_KEY" = Some key ->
  speech_to_text w TRANSCRIBE_MODEL audio_file (language args) = Ok response ->
  text_generation w ANALYSIS_MODEL
    (main_prompt args (transcript_of_response response) q) = Raise e ->
  fst (main json_loads negative_number_like w) = Raise e
  /\ fs (snd (main json_loads negative_number_like w)) = fs w
  /\ trace (snd (main json_loads negative_number_like w))
     = trace w ++ [EvLoadDotenv; EvExists (audio args)]
       ++ match quant_data args with Some p => [EvReadText p] | None => [] end
       ++ [EvNewClient;
           EvPrint (py "[1/3] 오디오를 녹취록으로 변환 중...");
           EvOpen (audio args);
           EvTranscribe TRANSCRIBE_MODEL (language args);
           EvPrint (py "[2/3] 범용 분석 프롬프트로 보고서 생성 중...");
           EvGenerate ANALYSIS_MODEL
             (main_prompt args (transcript_of_response response) q)].
Proof.
  intros Hparse Haudio Hq Hkey Hstt Hgen.
  destruct (load_quantitative_data_run json_loads (quant_data args) w) as (w0 & Hload0 & _).
  rewrite Hload0 in Hq. simpl in Hq.
  main_prelude Hparse Haudio.
  main_transcript Hload Hfs3 Henv3 Hstt3 Hq Hkey Haudio Hstt.
  erewrite bind_raise; cycle 1.
  { rewrite build_analysis_report_run.
    cbn [text_generation set_trace]. rewrite Hgen3, Hgen. reflexivity. }
  cbn [fst snd fs trace set_trace]. rewrite Hfs3, Htrace3.
  split; [reflexivity|]. split; [reflexivity|].
  rewrite <- !app_assoc. reflexivity.
Qed.

Lemma main_generation_failure_witness :
  fst (main (fun _ => None) (fun _ => false)
         {| fs := fs (sample_world [] hello_response);
            environ := environ (sample_world [] hello_response);
            dotenv := ∅;
            argv := [py "meeting.mp3"];
            clock := clock (sample_world [] hello_response);
            now_calls := 0;
            speech_to_text := fun _ _ _ => Ok hello_response;
            text_generation := fun _ _ => Raise (APIError (py "rate limit"));
            trace := [] |})
  = Raise (APIError (py "rate limit")).
Proof.
  apply (main_generation_failure (fun _ => None) (fun _ => false) _
           (store_audio (py "meeting.mp3") defaults)
           (Binary [73; 68; 51]%N) JNull (py "sk-test") hello_response).
  - vm_compute. reflexivity.
  - vm_compute. reflexivity.
  - reflexivity.
  - vm_compute. reflexivity.
  - reflexivity.
  - reflexivity.
Defined.



(** ** The report *)

(** X23. [build_analysis_report] asks the generation service once,
    for [ANALYSIS_MODEL] and with the prompt it was given, and touches
    no file.  What it returns is the answer stripped, so it neither
    begins nor ends with white space; what the service raises, it
    raises. *)
Theorem build_analysis_report_once (client : Client) (prompt : str) (w : World) :
  trace (snd (build_analysis_report client prompt w))
  = trace w ++ [EvGenerate ANALYSIS_MODEL prompt]
  /\ fs (snd (build_analysis_report client prompt w)) = fs w
  /\ (forall report,
        fst (build_analysis_report client prompt w) = Ok report ->
        strip report = report /\ head_ok report /\ last_ok report
        /\ exists output_text,
             text_generation w ANALYSIS_MODEL prompt = Ok output_text
             /\ report = strip output_text)
  /\ (forall e,
        fst (build_analysis_report client prompt w) = Raise e ->
        text_generation w ANALYSIS_MODEL prompt = Raise e).
Proof.
  rewrite build_analysis_report_run. cbn [fst snd trace fs set_trace].
  split; [reflexivity|]. split; [reflexivity|]. split.
  - intros report H. destruct (text_generation w ANALYSIS_MODEL prompt) as [out|e];
      [|discriminate H].
    injection H as <-. split; [apply strip_strip|].
    destruct (strip_edges out) as [Hh Hl].
    split; [exact Hh|]. split; [exact Hl|]. exists out. split; reflexivity.
  - intros e H. destruct (text_generation w ANALYSIS_MODEL prompt) as [out|e'];
      [discriminate H|].
    injection H as <-. reflexivity.
Qed.
